(** * bandmate-mcp: the tool handlers and the /mcp session table

    A shallow embedding of [src/index.ts] (and of its second variant, the
    [registerTool] file) together with the properties of the request
    translation and of the session bookkeeping.

    Conventions of the model:
    - a JavaScript string is the [string] of its bytes in generalised
      UTF-8: a lone surrogate is the three bytes [ED], [A0..BF], [80..BF].
      Every concatenation of the handlers has an ASCII character at the
      seam, where joining the bytes is joining the strings. The byte-wise
      [includes] is the code-unit one whenever the needle has no lone
      surrogate. [toLowerCase] is the runtime's, known only on ASCII;
    - a JavaScript number is a [spec_float];
    - [undefined] is [None] of an [option];
    - an object is an association list in insertion order;
    - a promise is a computation in [Async]: it reads the backend through
      [fetch], appends every call it issues to a log, and either returns or
      throws. *)

From Stdlib Require Import ZArith Ascii String List Bool SpecFloat.
From stdpp Require Import base option list strings gmap pretty.



(** ** The JavaScript runtime the handlers rely on *)

Module Js.

(** *** Numbers and truthiness *)

Definition number := spec_float.

(** [Boolean(n)]: [0], [-0] and [NaN] are falsy. *)
Definition truthy_number (n : number) : bool :=
  match n with
  | S754_zero _ | S754_nan => false
  | _ => true
  end.

(** [Boolean(s)]: only the empty string is falsy. *)
Definition truthy_string (s : string) : bool :=
  match s with
  | EmptyString => false
  | String _ _ => true
  end.

(** *** JSON values *)

#[warnings="-register-all"] Inductive Json : Type :=
| JNull
| JBool (b : bool)
| JNum (n : number)
| JStr (s : string)
| JArr (items : list Json)
| JObj (fields : list (string * Json)).

Definition truthy (v : Json) : bool :=
  match v with
  | JNull => false
  | JBool b => b
  | JNum n => truthy_number n
  | JStr s => truthy_string s
  | JArr _ | JObj _ => true
  end.

(** A possibly [undefined] value used as a condition. *)
Definition truthy_opt {A} (t : A -> bool) (o : option A) : bool :=
  match o with
  | Some a => t a
  | None => false
  end.

(** [if (o) k(o) else otherwise] for a possibly [undefined] value. *)
Definition when_truthy {A B} (t : A -> bool) (o : option A) (k : A -> B)
  (otherwise : B) : B :=
match o with
| Some a => if t a then k a else otherwise
| None => otherwise
end.

(** An array is truthy even when it is empty. *)
Definition truthy_array {A} (_ : list A) : bool := true.

(** *** Objects: association lists in insertion order *)

Fixpoint obj_get {V} (o : list (string * V)) (k : string) : option V :=
  match o with
  | [] => None
  | (k', v) :: rest => if String.eqb k' k then Some v else obj_get rest k
  end.

(** [o[k] = v]: an existing key keeps its place, a new key goes last. *)
Fixpoint obj_set {V} (o : list (string * V)) (k : string) (v : V)
  : list (string * V) :=
  match o with
  | [] => [(k, v)]
  | (k', v') :: rest =>
      if String.eqb k' k then (k, v) :: rest else (k', v') :: obj_set rest k v
  end.

(** *** Exceptions and synchronous results *)

Inductive Exn : Type :=
| Error (message : string)
| TypeError (message : string)
| SyntaxError (message : string)
| URIError (message : string).

Inductive Result (A : Type) : Type :=
| Ok (a : A)
| Throw (e : Exn).
Arguments Ok {A} a.
Arguments Throw {A} e.

#[export] Instance Result_ret : MRet Result := fun _ a => Ok a.
#[export] Instance Result_bind : MBind Result := fun _ _ f m =>
  match m with
  | Ok a => f a
  | Throw e => Throw e
  end.

(** [v[k]] for a key that no built-in prototype defines: reading a
  property of [null] throws, a primitive or an array has none. *)
Definition prop (v : Json) (k : string) : Result (option Json) :=
match v with
| JNull => Throw (TypeError "Cannot read properties of null")
| JObj fields => Ok (obj_get fields k)
| _ => Ok None
end.

(** [Array.prototype.some] and [filter] with a callback that may throw. *)
Fixpoint Array_some {A} (f : A -> Result bool) (l : list A) : Result bool :=
match l with
| [] => Ok false
| x :: rest =>
    match f x with
    | Ok true => Ok true
    | Ok false => Array_some f rest
    | Throw e => Throw e
    end
end.

Fixpoint Array_filter {A} (f : A -> Result bool) (l : list A) : Result (list A) :=
match l with
| [] => Ok []
| x :: rest =>
    match f x with
    | Ok keep =>
        match Array_filter f rest with
        | Ok kept => Ok (if keep then x :: kept else kept)
        | Throw e => Throw e
        end
    | Throw e => Throw e
    end
end.

(** *** Strings *)

Definition is_upper (c : ascii) : bool :=
  let n := N_of_ascii c in (65 <=? n)%N && (n <=? 90)%N.

Definition is_lower (c : ascii) : bool :=
  let n := N_of_ascii c in (97 <=? n)%N && (n <=? 122)%N.

Definition is_digit (c : ascii) : bool :=
  let n := N_of_ascii c in (48 <=? n)%N && (n <=? 57)%N.

Definition is_alnum (c : ascii) : bool := is_upper c || is_lower c || is_digit c.

Definition lower_char (c : ascii) : ascii :=
  if is_upper c then ascii_of_N (N_of_ascii c + 32) else c.


Fixpoint string_map (f : ascii -> ascii) (s : string) : string :=
  match s with
  | EmptyString => EmptyString
  | String c s' => String (f c) (string_map f s')
  end.

(** Lowercasing and uppercasing of the ASCII letters, every other byte
    kept. *)
Definition ascii_lower (s : string) : string := string_map lower_char s.

(** A string of ASCII characters only. *)
Fixpoint is_ascii (s : string) : bool :=
  match s with
  | EmptyString => true
  | String c rest => (N_of_ascii c <? 128)%N && is_ascii rest
  end.

(** The first two bytes of a lone surrogate. *)
Definition surrogate_start (c d : ascii) : bool :=
  (N_of_ascii c =? 237)%N
  && (160 <=? N_of_ascii d)%N && (N_of_ascii d <=? 191)%N.

Fixpoint has_lone_surrogate (s : string) : bool :=
  match s with
  | EmptyString => false
  | String c rest =>
      match rest with
      | String d _ => surrogate_start c d
      | EmptyString => false
      end
      || has_lone_surrogate rest
  end.

(** The conversion to a scalar value string: every lone surrogate becomes
    U+FFFD. *)
Fixpoint to_usv (s : string) : string :=
  match s with
  | EmptyString => EmptyString
  | String c rest =>
      match rest with
      | String d (String e rest') =>
          if surrogate_start c d
          then String "239" (String "191" (String "189" (to_usv rest')))
          else String c (to_usv rest)
      | _ => String c (to_usv rest)
      end
  end.

(** [String.prototype.includes]: [sub] occurs somewhere in [s]. *)
Fixpoint includes (s sub : string) : bool :=
  String.prefix sub s ||
  match s with
  | EmptyString => false
  | String _ s' => includes s' sub
  end.

(** *** URL encoding *)

Definition hex_digit (n : N) : ascii :=
  if (n <? 10)%N then ascii_of_N (48 + n) else ascii_of_N (55 + n).

Definition percent_encode (c : ascii) : string :=
  let n := N_of_ascii c in
  String "%" (String (hex_digit (n / 16)) (String (hex_digit (n mod 16)) EmptyString)).

Fixpoint char_in (c : ascii) (set : string) : bool :=
match set with
| EmptyString => false
| String c' rest => Ascii.eqb c c' || char_in c rest
end.

Fixpoint string_flat_map (f : ascii -> string) (s : string) : string :=
  match s with
  | EmptyString => EmptyString
  | String c s' => f c +:+ string_flat_map f s'
  end.

(** Everything but the unreserved marks is escaped. *)
Definition escape_component (s : string) : string :=
  string_flat_map
    (fun c => if is_alnum c || char_in c "-_.!~*'()"
              then String c EmptyString else percent_encode c) s.

(** [encodeURIComponent]: a lone surrogate makes it throw. *)
Definition encodeURIComponent (s : string) : Result string :=
  if has_lone_surrogate s then Throw (URIError "URI malformed")
  else Ok (escape_component s).

(** The application/x-www-form-urlencoded serializer that
    [URLSearchParams.prototype.toString] applies to names and values, which
    it holds as scalar value strings. *)
Definition form_urlencode (s : string) : string :=
  string_flat_map
    (fun c => if Ascii.eqb c " " then "+"
              else if is_alnum c || char_in c "*-._"
              then String c EmptyString else percent_encode c) (to_usv s).

Module URLSearchParams.
Definition t := list (string * string).
Definition new : t := [].
Definition append (params : t) (name value : string) : t :=
    (params ++ [(name, value)])%list.
Fixpoint toString (params : t) : string :=
    match params with
    | [] => ""
    | [(n, v)] => form_urlencode n +:+ "=" +:+ form_urlencode v
    | (n, v) :: rest =>
        form_urlencode n +:+ "=" +:+ form_urlencode v +:+ "&" +:+ toString rest
    end.
End URLSearchParams.

(** *** fetch *)

Record RequestInit := {
  method : string;
  headers : list (string * string);
  body : option string;
}.

(** One call of [fetch(url, options)]. *)
Record FetchCall := { url : string; options : RequestInit }.

Module Response.
  (** What the handler reads from a response: the status line and the
      outcomes of [text()] and [json()]. *)
Record t := {
    status : Z;
    text : string;
    json : Result Json;
  }.
Definition ok (r : t) : bool := (200 <=? status r)%Z && (status r <=? 299)%Z.
End Response.

(** The backend as [fetch] sees it: a response, or a rejected promise. *)
Definition Backend := FetchCall -> Result Response.t.

(** *** Promises *)

Definition Async (A : Type) : Type :=
  Backend -> list FetchCall -> Result A * list FetchCall.

#[export] Instance Async_ret : MRet Async := fun _ a _ log => (Ok a, log).
#[export] Instance Async_bind : MBind Async := fun _ _ f m backend log =>
  match m backend log with
  | (Ok a, log') => f a backend log'
  | (Throw e, log') => (Throw e, log')
  end.

Definition throw {A} (e : Exn) : Async A := fun _ log => (Throw e, log).

Definition await {A} (r : Result A) : Async A := fun _ log => (r, log).

Definition fetch (u : string) (o : RequestInit) : Async Response.t :=
  fun backend log =>
    let call := {| url := u; options := o |} in
    (backend call, (log ++ [call])%list).

(** Run a handler against a backend, from an empty log. *)
Definition run {A} (m : Async A) (backend : Backend) : Result A * list FetchCall :=
  m backend [].

(** *** The process environment, [JSON.stringify] and [toLowerCase] *)

Class Runtime := {
  env_BANDMATE_API_URL : option string;
  env_BANDMATE_AUTH_TOKEN : option string;
  (** [JSON.stringify(value, null, space)]; [space = 0] is the one-argument call. *)
  JSON_stringify : Json -> nat -> string;
  (** [String.prototype.toLowerCase]: the Unicode lowercasing, of which
      only the action on ASCII strings is assumed. *)
  toLowerCase : string -> string;
  toLowerCase_ascii :
    forall s, is_ascii s = true -> toLowerCase s = ascii_lower s;
}.

(** [process.env.X || fallback] *)
Definition env_or (v : option string) (fallback : string) : string :=
  match v with
  | Some s => if truthy_string s then s else fallback
  | None => fallback
  end.

(** *** Tool results *)

Record ContentBlock := { type : string; text : string }.
Record ToolResult := { content : list ContentBlock }.

End Js.

Export Js.

(** ** The tool schemas

    A parameter record that passed the zod schema of its tool: optional
    fields are [option]s, [z.boolean().default(false)] fields are already
    booleans. *)

Inductive ToolCall : Type :=
| call_get_songs (userId ids : option string)
| call_get_song (id : string)
| call_get_songs_by_user (userId : string)
| call_get_songs_in_list (listId : string)
| call_upsert_song (id : option string) (title chordsText : string)
    (isPublic : bool) (bpm : option number) (key voice : option string)
    (tags : option (list string)) (spotifyUrl youtubeUrl userId : option string)
| call_get_lists (userId : option string)
| call_get_list (id : string)
| call_upsert_list (id name : option string) (isPrivate : bool)
    (songs : option (list string)) (userId : option string)
| call_get_artists
| call_upsert_artist (name : string)
| call_search_songs (query : string) (userId : option string).

Definition tool_name (c : ToolCall) : string :=
  match c with
  | call_get_songs _ _ => "get_songs"
  | call_get_song _ => "get_song"
  | call_get_songs_by_user _ => "get_songs_by_user"
  | call_get_songs_in_list _ => "get_songs_in_list"
  | call_upsert_song _ _ _ _ _ _ _ _ _ _ _ => "upsert_song"
  | call_get_lists _ => "get_lists"
  | call_get_list _ => "get_list"
  | call_upsert_list _ _ _ _ _ => "upsert_list"
  | call_get_artists => "get_artists"
  | call_upsert_artist _ => "upsert_artist"
  | call_search_songs _ _ => "search_songs"
  end.

(** ** src/index.ts *)

Module IndexTs.

Section Tools.
Context {rt : Runtime}.

Definition API_BASE_URL : string :=
  env_or env_BANDMATE_API_URL "https://vertigox.ue.r.appspot.com/api".

Definition AUTH_TOKEN : string := env_or env_BANDMATE_AUTH_TOKEN "".

(** The request [apiRequest] hands to [fetch]. *)
Definition request_options (method : string) (body : option Json)
    (requiresAuth : bool) : RequestInit :=
  let headers := [("Content-Type", "application/json")] in
  let headers :=
    if requiresAuth && truthy_string AUTH_TOKEN
    then obj_set headers "Authorization" ("Bearer " +:+ AUTH_TOKEN)
    else headers in
  let options := {| method := method; headers := headers; body := None |} in
  match body with
  | Some b =>
      if truthy b && (String.eqb method "POST" || String.eqb method "PUT"
                      || String.eqb method "PATCH")
      then {| method := method; headers := headers;
              body := Some (JSON_stringify b 0) |}
      else options
  | None => options
  end.

Definition apiRequest (endpoint : string) (method : string)
    (body : option Json) (requiresAuth : bool) : Async Json :=
  let options := request_options method body requiresAuth in
  response ← fetch (API_BASE_URL +:+ endpoint) options;
  if negb (Response.ok response) then
    let errorText := Response.text response in
    throw (Error ("API request failed: " +:+ pretty (Response.status response)
                  +:+ " - " +:+ errorText))
  else
    await (Response.json response).

(** [{ content: [{ type: "text", text: JSON.stringify(v, null, 2) }] }] *)
Definition text_content (v : Json) : ToolResult :=
  {| content := [ {| type := "text"; text := JSON_stringify v 2 |} ] |}.

(** *** Song tools *)

Definition get_songs_endpoint (userId ids : option string) : string :=
  let endpoint := "/songs" in
  let params := URLSearchParams.new in
  let params :=
    when_truthy truthy_string ids
      (fun ids => URLSearchParams.append params "ids" ids)
      (when_truthy truthy_string userId
         (fun userId => URLSearchParams.append params "userId" userId)
         params) in
  let queryString := URLSearchParams.toString params in
  if truthy_string queryString then endpoint +:+ "?" +:+ queryString
  else endpoint.

Definition get_songs (userId ids : option string) : Async ToolResult :=
  result ← apiRequest (get_songs_endpoint userId ids) "GET" None false;
  mret (text_content result).

Definition get_song (id : string) : Async ToolResult :=
  result ← apiRequest ("/songs/" +:+ id) "GET" None false;
  mret (text_content result).

Definition get_songs_by_user (userId : string) : Async ToolResult :=
  result ← apiRequest ("/songs/user/" +:+ userId) "GET" None false;
  mret (text_content result).

Definition get_songs_in_list (listId : string) : Async ToolResult :=
  result ← apiRequest ("/songs/list/" +:+ listId) "GET" None false;
  mret (text_content result).

(** [if (v) o[k] = f(v)] for an optional parameter [v]. *)
Definition set_if {A} (t : A -> bool) (f : A -> Json) (k : string)
    (v : option A) (o : list (string * Json)) : list (string * Json) :=
  when_truthy t v (fun a => obj_set o k (f a)) o.

(** [if (v) (songData.details as Record<string, unknown>)[k] = f(v)] *)
Definition set_details_if {A} (t : A -> bool) (f : A -> Json) (k : string)
    (v : option A) (o : list (string * Json)) : list (string * Json) :=
  match obj_get o "details" with
  | Some (JObj details) => obj_set o "details" (JObj (set_if t f k v details))
  | _ => o
  end.

Definition songData (id : option string) (title chordsText : string)
    (isPublic : bool) (bpm : option number) (key voice : option string)
    (tags : option (list string)) (spotifyUrl youtubeUrl userId : option string)
    : list (string * Json) :=
  let songData :=
    [ ("title", JStr title);
      ("chords-text", JStr chordsText);
      ("public", JBool isPublic);
      ("details", JObj []);
      ("tags", JArr (map JStr (match tags with
                               | Some t => t
                               | None => []
                               end))) ] in
  let songData := set_if truthy_string JStr "id" id songData in
  let songData := set_details_if truthy_number JNum "bpm" bpm songData in
  let songData := set_details_if truthy_string JStr "key" key songData in
  let songData := set_details_if truthy_string JStr "voice" voice songData in
  let songData := set_if truthy_string JStr "spotifyUrl" spotifyUrl songData in
  let songData := set_if truthy_string JStr "youtubeUrl" youtubeUrl songData in
  let songData := set_if truthy_string JStr "user_id" userId songData in
  songData.

Definition upsert_song (id : option string) (title chordsText : string)
    (isPublic : bool) (bpm : option number) (key voice : option string)
    (tags : option (list string)) (spotifyUrl youtubeUrl userId : option string)
    : Async ToolResult :=
  let songData :=
    songData id title chordsText isPublic bpm key voice tags
             spotifyUrl youtubeUrl userId in
  result ← apiRequest "/songs" "POST" (Some (JObj songData)) false;
  mret (text_content result).

(** *** List tools *)

Definition get_lists_endpoint (userId : option string) : Result string :=
  let endpoint := "/lists" in
  when_truthy truthy_string userId
    (fun userId =>
       escaped ← encodeURIComponent userId;
       Ok (endpoint +:+ "?userId=" +:+ escaped))
    (Ok endpoint).

Definition get_lists (userId : option string) : Async ToolResult :=
  endpoint ← await (get_lists_endpoint userId);
  result ← apiRequest endpoint "GET" None false;
  mret (text_content result).

Definition get_list (id : string) : Async ToolResult :=
  result ← apiRequest ("/lists/" +:+ id) "GET" None false;
  mret (text_content result).

Definition listData (id name : option string) (isPrivate : bool)
    (songs : option (list string)) (userId : option string)
    : list (string * Json) :=
  let listData := [ ("private", JBool isPrivate) ] in
  let listData := set_if truthy_string JStr "id" id listData in
  let listData := set_if truthy_string JStr "name" name listData in
  let listData :=
    set_if truthy_array (fun s => JArr (map JStr s)) "songs" songs listData in
  let listData := set_if truthy_string JStr "user_uid" userId listData in
  listData.

Definition upsert_list (id name : option string) (isPrivate : bool)
    (songs : option (list string)) (userId : option string)
    : Async ToolResult :=
  let listData := listData id name isPrivate songs userId in
  result ← apiRequest "/lists" "POST" (Some (JObj listData)) true;
  mret (text_content result).

(** *** Artist tools *)

Definition get_artists : Async ToolResult :=
  result ← apiRequest "/artists" "GET" None false;
  mret (text_content result).

Definition upsert_artist (name : string) : Async ToolResult :=
  result ← apiRequest "/artists" "POST" (Some (JObj [("name", JStr name)])) false;
  mret (text_content result).

(** *** Utility tools *)

(** [v.toLowerCase().includes(queryLower)]: only a string has the method. *)
Definition lower_includes (queryLower : string) (v : Json) : Result bool :=
  match v with
  | JStr s => Ok (includes (toLowerCase s) queryLower)
  | _ => Throw (TypeError "toLowerCase is not a function")
  end.

(** [song.title?.toLowerCase().includes(queryLower)] *)
Definition titleMatch (queryLower : string) (song : Json) : Result (option bool) :=
  match prop song "title" with
  | Ok None | Ok (Some JNull) => Ok None
  | Ok (Some title) => b ← lower_includes queryLower title; Ok (Some b)
  | Throw e => Throw e
  end.

(** [song.tags?.some((tag) => tag.toLowerCase().includes(queryLower))] *)
Definition tagsMatch (queryLower : string) (song : Json) : Result (option bool) :=
  match prop song "tags" with
  | Ok None | Ok (Some JNull) => Ok None
  | Ok (Some (JArr tags)) =>
      b ← Array_some (lower_includes queryLower) tags; Ok (Some b)
  | Ok (Some _) => Throw (TypeError "song.tags?.some is not a function")
  | Throw e => Throw e
  end.

(** The filter callback; its result is used as a condition. *)
Definition song_matches (queryLower : string) (song : Json) : Result bool :=
  titleMatch ← titleMatch queryLower song;
  tagsMatch ← tagsMatch queryLower song;
  Ok (if truthy_opt id titleMatch then true else truthy_opt id tagsMatch).

(** [result.body || result] *)
Definition songs_of (result : Json) : Result Json :=
  body ← prop result "body";
  Ok (when_truthy truthy body (fun body => body) result).

Definition search_filter (query : string) (result : Json) : Result (list Json) :=
  songs ← songs_of result;
  let queryLower := toLowerCase query in
  match songs with
  | JArr songs => Array_filter (song_matches queryLower) songs
  | _ => Throw (TypeError "songs.filter is not a function")
  end.

Definition search_songs_endpoint (userId : option string) : Result string :=
  let endpoint := "/songs" in
  when_truthy truthy_string userId
    (fun userId =>
       escaped ← encodeURIComponent userId;
       Ok (endpoint +:+ "?userId=" +:+ escaped))
    (Ok endpoint).

Definition search_songs (query : string) (userId : option string)
    : Async ToolResult :=
  endpoint ← await (search_songs_endpoint userId);
  result ← apiRequest endpoint "GET" None false;
  filtered ← await (search_filter query result);
  mret (text_content (JArr filtered)).

(** *** The registry *)

Definition registered_tools : list string :=
  [ "get_songs"; "get_song"; "get_songs_by_user"; "get_songs_in_list";
    "upsert_song"; "get_lists"; "get_list"; "upsert_list"; "get_artists";
    "upsert_artist"; "search_songs" ].

(** The handler registered under the name of a call, on its parameters. *)
Definition call_tool (c : ToolCall) : Async ToolResult :=
  match c with
  | call_get_songs userId ids => get_songs userId ids
  | call_get_song id => get_song id
  | call_get_songs_by_user userId => get_songs_by_user userId
  | call_get_songs_in_list listId => get_songs_in_list listId
  | call_upsert_song id title chordsText isPublic bpm key voice tags
      spotifyUrl youtubeUrl userId =>
      upsert_song id title chordsText isPublic bpm key voice tags
        spotifyUrl youtubeUrl userId
  | call_get_lists userId => get_lists userId
  | call_get_list id => get_list id
  | call_upsert_list id name isPrivate songs userId =>
      upsert_list id name isPrivate songs userId
  | call_get_artists => get_artists
  | call_upsert_artist name => upsert_artist name
  | call_search_songs query userId => search_songs query userId
  end.

End Tools.

(** *** The streamable HTTP endpoint *)

Module Express.
(** The parts of an inbound request that [app.all("/mcp")] reads. *)
Record Request := {
  method : string;
  headers : gmap string string;
  body : Json;
}.
End Express.

(** A [StreamableHTTPServerTransport], as far as the handler reads it. The
    SDK assigns [sessionId] when the handshake completes. *)
Record Transport := { sessionId : option string }.

(** The process state: the session table, every transport object created
    so far (a transport is named by its index), and the transports handed
    to [server.connect]. *)
Record ServerState := {
  streamableTransports : gmap string nat;
  transports : list Transport;
  connected : list nat;
}.

(** How the handler leaves a request: with the 400 answer; by calling
    [transport.handleRequest] of a registered transport; or, with a new
    transport, by awaiting [server.connect(transport)], after which, if
    that resolves, [transport.handleRequest] is called, and if that
    rejects, the rejection leaves the handler. *)
Inductive Outcome : Type :=
| Status400 (error : string)
| HandleRequest (transport : nat)
| Connect (transport : nat).

(** [onsessioninitialized: (newSessionId) => streamableTransports.set(newSessionId, transport)] *)
Definition onsessioninitialized (transport : nat) (newSessionId : string)
    (st : ServerState) : ServerState :=
  {| streamableTransports := <[newSessionId := transport]> (streamableTransports st);
     transports := transports st;
     connected := connected st |}.

(** [transport.onclose = () => { if (transport.sessionId) streamableTransports.delete(transport.sessionId) }] *)
Definition onclose (transport : nat) (st : ServerState) : ServerState :=
  match transports st !! transport with
  | Some t =>
      when_truthy truthy_string (sessionId t)
        (fun sessionId =>
           {| streamableTransports := delete sessionId (streamableTransports st);
              transports := transports st;
              connected := connected st |})
        st
  | None => st
  end.

Definition bad_request : string :=
  "Bad Request: missing session ID or not an initialization request".

(** [app.all("/mcp", ...)] up to its first [await]. What the SDK does
    inside [server.connect] and [transport.handleRequest] reaches the state
    only through the two callbacks, which are events of their own below. *)
Definition mcp (req : Express.Request) (st : ServerState) : ServerState * Outcome :=
  let sessionId := Express.headers req !! "mcp-session-id" in
  match when_truthy truthy_string sessionId
          (fun sessionId => streamableTransports st !! sessionId) None with
  | Some transport => (st, HandleRequest transport)
  | None =>
      if negb (truthy_opt truthy_string sessionId)
         && String.eqb (Express.method req) "POST"
      then
        let transport := length (transports st) in
        ({| streamableTransports := streamableTransports st;
            transports := transports st ++ [ {| sessionId := None |} ];
            connected := connected st ++ [transport] |},
         Connect transport)
      else
        (st, Status400 bad_request)
  end.

(** What happens to the server: a request reaches [/mcp]; the SDK completes
    the handshake of a transport, stores the identifier drawn from
    [sessionIdGenerator] in it and calls [onsessioninitialized]; a
    transport closes and the SDK calls [onclose]. A request during which
    the SDK fires a callback (the first POST of a session, the DELETE that
    ends one) shows as [Inbound] followed by [Initialized] or [Closed]. *)
Inductive Event : Type :=
| Inbound (req : Express.Request)
| Initialized (transport : nat) (uuid : string)
| Closed (transport : nat).

Definition step (st : ServerState) (ev : Event) : ServerState :=
  match ev with
  | Inbound req => fst (mcp req st)
  | Initialized transport uuid =>
      match transports st !! transport with
      | Some _ =>
          onsessioninitialized transport uuid
            {| streamableTransports := streamableTransports st;
               transports := <[transport := {| sessionId := Some uuid |}]> (transports st);
               connected := connected st |}
      | None => st
      end
  | Closed transport => onclose transport st
  end.

Definition steps (st : ServerState) (evs : list Event) : ServerState :=
  fold_left step evs st.

Definition initial : ServerState :=
  {| streamableTransports := ∅; transports := []; connected := [] |}.

End IndexTs.

(** ** The second variant: the same tools registered with [registerTool] *)

Module Part001.

Section Tools.
Context {rt : Runtime}.

Definition API_BASE_URL : string :=
  env_or env_BANDMATE_API_URL "https://vertigox.ue.r.appspot.com/api".

Definition AUTH_TOKEN : string := env_or env_BANDMATE_AUTH_TOKEN "".

(** The request [apiRequest] hands to [fetch]. *)
Definition request_options (method : string) (body : option Json)
    (requiresAuth : bool) : RequestInit :=
  let headers := [("Content-Type", "application/json")] in
  let headers :=
    if requiresAuth && truthy_string AUTH_TOKEN
    then obj_set headers "Authorization" ("Bearer " +:+ AUTH_TOKEN)
    else headers in
  let options := {| method := method; headers := headers; body := None |} in
  match body with
  | Some b =>
      if truthy b && (String.eqb method "POST" || String.eqb method "PUT"
                      || String.eqb method "PATCH")
      then {| method := method; headers := headers;
              body := Some (JSON_stringify b 0) |}
      else options
  | None => options
  end.

Definition apiRequest (endpoint : string) (method : string)
    (body : option Json) (requiresAuth : bool) : Async Json :=
  let options := request_options method body requiresAuth in
  response ← fetch (API_BASE_URL +:+ endpoint) options;
  if negb (Response.ok response) then
    let errorText := Response.text response in
    throw (Error ("API request failed: " +:+ pretty (Response.status response)
                  +:+ " - " +:+ errorText))
  else
    await (Response.json response).

(** [{ content: [{ type: "text", text: JSON.stringify(v, null, 2) }] }] *)
Definition text_content (v : Json) : ToolResult :=
  {| content := [ {| type := "text"; text := JSON_stringify v 2 |} ] |}.

(** *** Song tools *)

Definition get_songs_endpoint (userId ids : option string) : string :=
  let endpoint := "/songs" in
  let params := URLSearchParams.new in
  let params :=
    when_truthy truthy_string ids
      (fun ids => URLSearchParams.append params "ids" ids)
      (when_truthy truthy_string userId
         (fun userId => URLSearchParams.append params "userId" userId)
         params) in
  let queryString := URLSearchParams.toString params in
  if truthy_string queryString then endpoint +:+ "?" +:+ queryString
  else endpoint.

Definition get_songs (userId ids : option string) : Async ToolResult :=
  result ← apiRequest (get_songs_endpoint userId ids) "GET" None false;
  mret (text_content result).

Definition get_song (id : string) : Async ToolResult :=
  result ← apiRequest ("/songs/" +:+ id) "GET" None false;
  mret (text_content result).

Definition get_songs_by_user (userId : string) : Async ToolResult :=
  result ← apiRequest ("/songs/user/" +:+ userId) "GET" None false;
  mret (text_content result).

Definition get_songs_in_list (listId : string) : Async ToolResult :=
  result ← apiRequest ("/songs/list/" +:+ listId) "GET" None false;
  mret (text_content result).

(** [if (v) o[k] = f(v)] for an optional parameter [v]. *)
Definition set_if {A} (t : A -> bool) (f : A -> Json) (k : string)
    (v : option A) (o : list (string * Json)) : list (string * Json) :=
  when_truthy t v (fun a => obj_set o k (f a)) o.

(** [if (v) (songData.details as Record<string, unknown>)[k] = f(v)] *)
Definition set_details_if {A} (t : A -> bool) (f : A -> Json) (k : string)
    (v : option A) (o : list (string * Json)) : list (string * Json) :=
  match obj_get o "details" with
  | Some (JObj details) => obj_set o "details" (JObj (set_if t f k v details))
  | _ => o
  end.

Definition songData (id : option string) (title chordsText : string)
    (isPublic : bool) (bpm : option number) (key voice : option string)
    (tags : option (list string)) (spotifyUrl youtubeUrl userId : option string)
    : list (string * Json) :=
  let songData :=
    [ ("title", JStr title);
      ("chords-text", JStr chordsText);
      ("public", JBool isPublic);
      ("details", JObj []);
      ("tags", JArr (map JStr (match tags with
                               | Some t => t
                               | None => []
                               end))) ] in
  let songData := set_if truthy_string JStr "id" id songData in
  let songData := set_details_if truthy_number JNum "bpm" bpm songData in
  let songData := set_details_if truthy_string JStr "key" key songData in
  let songData := set_details_if truthy_string JStr "voice" voice songData in
  let songData := set_if truthy_string JStr "spotifyUrl" spotifyUrl songData in
  let songData := set_if truthy_string JStr "youtubeUrl" youtubeUrl songData in
  let songData := set_if truthy_string JStr "user_id" userId songData in
  songData.

Definition upsert_song (id : option string) (title chordsText : string)
    (isPublic : bool) (bpm : option number) (key voice : option string)
    (tags : option (list string)) (spotifyUrl youtubeUrl userId : option string)
    : Async ToolResult :=
  let songData :=
    songData id title chordsText isPublic bpm key voice tags
             spotifyUrl youtubeUrl userId in
  result ← apiRequest "/songs" "POST" (Some (JObj songData)) false;
  mret (text_content result).

(** *** List tools *)

Definition get_lists_endpoint (userId : option string) : Result string :=
  let endpoint := "/lists" in
  when_truthy truthy_string userId
    (fun userId =>
       escaped ← encodeURIComponent userId;
       Ok (endpoint +:+ "?userId=" +:+ escaped))
    (Ok endpoint).

Definition get_lists (userId : option string) : Async ToolResult :=
  endpoint ← await (get_lists_endpoint userId);
  result ← apiRequest endpoint "GET" None false;
  mret (text_content result).

Definition get_list (id : string) : Async ToolResult :=
  result ← apiRequest ("/lists/" +:+ id) "GET" None false;
  mret (text_content result).

Definition listData (id name : option string) (isPrivate : bool)
    (songs : option (list string)) (userId : option string)
    : list (string * Json) :=
  let listData := [ ("private", JBool isPrivate) ] in
  let listData := set_if truthy_string JStr "id" id listData in
  let listData := set_if truthy_string JStr "name" name listData in
  let listData :=
    set_if truthy_array (fun s => JArr (map JStr s)) "songs" songs listData in
  let listData := set_if truthy_string JStr "user_uid" userId listData in
  listData.

Definition upsert_list (id name : option string) (isPrivate : bool)
    (songs : option (list string)) (userId : option string)
    : Async ToolResult :=
  let listData := listData id name isPrivate songs userId in
  result ← apiRequest "/lists" "POST" (Some (JObj listData)) true;
  mret (text_content result).

(** *** Artist tools *)

Definition get_artists : Async ToolResult :=
  result ← apiRequest "/artists" "GET" None false;
  mret (text_content result).

Definition upsert_artist (name : string) : Async ToolResult :=
  result ← apiRequest "/artists" "POST" (Some (JObj [("name", JStr name)])) false;
  mret (text_content result).

(** *** Utility tools *)

(** [v.toLowerCase().includes(queryLower)]: only a string has the method. *)
Definition lower_includes (queryLower : string) (v : Json) : Result bool :=
  match v with
  | JStr s => Ok (includes (toLowerCase s) queryLower)
  | _ => Throw (TypeError "toLowerCase is not a function")
  end.

(** [song.title?.toLowerCase().includes(queryLower)] *)
Definition titleMatch (queryLower : string) (song : Json) : Result (option bool) :=
  match prop song "title" with
  | Ok None | Ok (Some JNull) => Ok None
  | Ok (Some title) => b ← lower_includes queryLower title; Ok (Some b)
  | Throw e => Throw e
  end.

(** [song.tags?.some((tag) => tag.toLowerCase().includes(queryLower))] *)
Definition tagsMatch (queryLower : string) (song : Json) : Result (option bool) :=
  match prop song "tags" with
  | Ok None | Ok (Some JNull) => Ok None
  | Ok (Some (JArr tags)) =>
      b ← Array_some (lower_includes queryLower) tags; Ok (Some b)
  | Ok (Some _) => Throw (TypeError "song.tags?.some is not a function")
  | Throw e => Throw e
  end.

(** The filter callback; its result is used as a condition. *)
Definition song_matches (queryLower : string) (song : Json) : Result bool :=
  titleMatch ← titleMatch queryLower song;
  tagsMatch ← tagsMatch queryLower song;
  Ok (if truthy_opt id titleMatch then true else truthy_opt id tagsMatch).

(** [result.body || result] *)
Definition songs_of (result : Json) : Result Json :=
  body ← prop result "body";
  Ok (when_truthy truthy body (fun body => body) result).

Definition search_filter (query : string) (result : Json) : Result (list Json) :=
  songs ← songs_of result;
  let queryLower := toLowerCase query in
  match songs with
  | JArr songs => Array_filter (song_matches queryLower) songs
  | _ => Throw (TypeError "songs.filter is not a function")
  end.

Definition search_songs_endpoint (userId : option string) : Result string :=
  let endpoint := "/songs" in
  when_truthy truthy_string userId
    (fun userId =>
       escaped ← encodeURIComponent userId;
       Ok (endpoint +:+ "?userId=" +:+ escaped))
    (Ok endpoint).

Definition search_songs (query : string) (userId : option string)
    : Async ToolResult :=
  endpoint ← await (search_songs_endpoint userId);
  result ← apiRequest endpoint "GET" None false;
  filtered ← await (search_filter query result);
  mret (text_content (JArr filtered)).

(** *** The registry *)

Definition registered_tools : list string :=
  [ "get_songs"; "get_song"; "get_songs_by_user"; "get_songs_in_list";
    "upsert_song"; "get_lists"; "get_list"; "upsert_list"; "get_artists";
    "upsert_artist"; "search_songs" ].

(** The handler registered under the name of a call, on its parameters. *)
Definition call_tool (c : ToolCall) : Async ToolResult :=
  match c with
  | call_get_songs userId ids => get_songs userId ids
  | call_get_song id => get_song id
  | call_get_songs_by_user userId => get_songs_by_user userId
  | call_get_songs_in_list listId => get_songs_in_list listId
  | call_upsert_song id title chordsText isPublic bpm key voice tags
      spotifyUrl youtubeUrl userId =>
      upsert_song id title chordsText isPublic bpm key voice tags
        spotifyUrl youtubeUrl userId
  | call_get_lists userId => get_lists userId
  | call_get_list id => get_list id
  | call_upsert_list id name isPrivate songs userId =>
      upsert_list id name isPrivate songs userId
  | call_get_artists => get_artists
  | call_upsert_artist name => upsert_artist name
  | call_search_songs query userId => search_songs query userId
  end.

End Tools.

End Part001.

(** ** The vocabulary of the specification *)

Module Spec.

(** [sub] is a substring of [s]. *)
Definition substring (sub s : string) : Prop :=
  exists pre post, s = pre +:+ sub +:+ post.

Definition is_string (v : Json) : bool :=
  match v with JStr _ => true | _ => false end.

(** An entry as the handler's type annotation declares it,
    [{ title?: string; tags?: string[] }], with [null] allowed where a
    field may be absent; and, beside these, any entry that is not [null]
    and not an object, on which both fields read as [undefined]. *)
Definition is_song (song : Json) : bool :=
  match song with
  | JObj fields =>
      match obj_get fields "title" with
      | None | Some JNull | Some (JStr _) => true
      | Some _ => false
      end
      && match obj_get fields "tags" with
         | None | Some JNull => true
         | Some (JArr tags) => forallb is_string tags
         | Some _ => false
         end
  | JNull => false
  | _ => true
  end.

Definition title_of (song : Json) : option string :=
  match song with
  | JObj fields =>
      match obj_get fields "title" with Some (JStr s) => Some s | _ => None end
  | _ => None
  end.

Definition string_of (v : Json) : option string :=
  match v with JStr s => Some s | _ => None end.

Definition tags_of (song : Json) : list string :=
  match song with
  | JObj fields =>
      match obj_get fields "tags" with
      | Some (JArr tags) => omap string_of tags
      | _ => []
      end
  | _ => []
  end.

Section Search.
Context {rt : Runtime}.


(** The lowercased query is a substring of the lowercased title or of the
    lowercased form of at least one tag. *)
Definition matches (query : string) (song : Json) : Prop :=
  (exists title, title_of song = Some title
     /\ substring (toLowerCase query) (toLowerCase title))
  \/ (exists tag, In tag (tags_of song)
        /\ substring (toLowerCase query) (toLowerCase tag)).

Definition matchesb (query : string) (song : Json) : bool :=
  match title_of song with
  | Some title => includes (toLowerCase title) (toLowerCase query)
  | None => false
  end
  || existsb (fun tag => includes (toLowerCase tag) (toLowerCase query))
       (tags_of song).

End Search.

(** The parameters of the query string of an endpoint: the part after the
    first [?], cut at every [&], each piece cut at its first [=]. *)
Fixpoint break_at (sep : ascii) (s : string) : string * option string :=
  match s with
  | EmptyString => (EmptyString, None)
  | String c rest =>
      if Ascii.eqb c sep then (EmptyString, Some rest)
      else let '(before, after) := break_at sep rest in (String c before, after)
  end.

Fixpoint split_on (sep : ascii) (s : string) : list string :=
  match s with
  | EmptyString => [EmptyString]
  | String c rest =>
      if Ascii.eqb c sep then EmptyString :: split_on sep rest
      else match split_on sep rest with
           | piece :: pieces => String c piece :: pieces
           | [] => [String c EmptyString]
           end
  end.

Definition query_params (endpoint : string) : list (string * string) :=
  match snd (break_at "?" endpoint) with
  | None => []
  | Some query =>
      map (fun piece => let '(name, value) := break_at "=" piece in
                        (name, default EmptyString value))
          (split_on "&" query)
  end.

(** The [details] object as the testable property words it: every supplied
    key, with its value. *)
Definition supplied {A} (f : A -> Json) (k : string) (v : option A)
    : list (string * Json) :=
  match v with
  | Some a => [(k, f a)]
  | None => []
  end.

Definition details_of_supplied (bpm : option number) (key voice : option string)
    : list (string * Json) :=
  (supplied JNum "bpm" bpm ++ supplied JStr "key" key
   ++ supplied JStr "voice" voice)%list.

(** What the code puts under a key: the value, when it is truthy. *)
Definition provided {A} (t : A -> bool) (f : A -> Json) (k : string)
    (v : option A) : list (string * Json) :=
  when_truthy t v (fun a => [(k, f a)]) [].

(** An optional parameter with its falsy values taken as absent. *)
Definition drop_falsy {A} (t : A -> bool) (v : option A) : option A :=
  when_truthy t v Some None.

End Spec.

(** ** Concrete runtimes, backends and requests *)

Module Example.

(** A process started without a token, and one started with a token. The
    bodies these runtimes produce are placeholders, and their lowercasing
    leaves everything but the ASCII letters as it is. *)
Definition anonymous : Runtime :=
  {| env_BANDMATE_API_URL := None;
     env_BANDMATE_AUTH_TOKEN := None;
     JSON_stringify := fun _ _ => "<json>";
     toLowerCase := ascii_lower;
     toLowerCase_ascii := fun _ _ => eq_refl |}.

Definition authenticated : Runtime :=
  {| env_BANDMATE_API_URL := Some "http://localhost:3000/api";
     env_BANDMATE_AUTH_TOKEN := Some "s3cret";
     JSON_stringify := fun _ _ => "<json>";
     toLowerCase := ascii_lower;
     toLowerCase_ascii := fun _ _ => eq_refl |}.

Definition not_found : Response.t :=
  {| Response.status := 404;
     Response.text := "song not found";
     Response.json := Throw (SyntaxError "Unexpected token s in JSON") |}.

Definition responds (r : Response.t) : Backend := fun _ => Ok r.

Definition foobar : Json := JObj [("title", JStr "Foobar"); ("tags", JArr [])].
Definition baz : Json :=
  JObj [("title", JStr "Baz"); ("tags", JArr [JStr "foo-rock"])].
Definition qux : Json := JObj [("title", JStr "Qux"); ("tags", JArr [])].

Definition collection : Json := JArr [foobar; baz; qux].

Definition found (v : Json) : Response.t :=
  {| Response.status := 200; Response.text := "<json>"; Response.json := Ok v |}.

(** A handshake request, a request that presents an empty session header,
    and requests that present a session identifier. *)
Definition handshake : IndexTs.Express.Request :=
  {| IndexTs.Express.method := "POST";
     IndexTs.Express.headers := ∅;
     IndexTs.Express.body := JObj [("method", JStr "initialize")] |}.

Definition empty_session_header : IndexTs.Express.Request :=
  {| IndexTs.Express.method := "POST";
     IndexTs.Express.headers := {[ "mcp-session-id" := "" ]};
     IndexTs.Express.body := JNull |}.

Definition with_session (method sessionId : string) : IndexTs.Express.Request :=
  {| IndexTs.Express.method := method;
     IndexTs.Express.headers := {[ "mcp-session-id" := sessionId ]};
     IndexTs.Express.body := JNull |}.

Definition uuid1 : string := "3f0e8a52-7c1d-4b9e-9a40-2d6c5b1e7f33".

(** One session, opened by a handshake. *)
Definition one_session : IndexTs.ServerState :=
  IndexTs.steps IndexTs.initial
    [IndexTs.Inbound handshake; IndexTs.Initialized 0 uuid1].

Definition uuid2 : string := "9b2d6c1a-0e4f-4a7b-8c33-5f1e2d3c4b5a".

(** Two sessions, each opened by its own handshake. *)
Definition two_sessions : IndexTs.ServerState :=
  IndexTs.steps one_session
    [IndexTs.Inbound handshake; IndexTs.Initialized 1 uuid2].

(** A lone high surrogate, and two strings that hold one. *)
Definition lone_surrogate : string :=
  String "237" (String "160" (String "128" EmptyString)).
Definition lone_surrogate' : string :=
  String "237" (String "160" (String "129" EmptyString)).

End Example.

(** ** The legacy SSE endpoints of src/index.ts *)

Module Legacy.

(** The legacy session table, the number of [SSEServerTransport] objects
    created so far (a transport is named by its rank of creation), and the
    transports handed to [server.connect]. *)
Record State := {
  sseTransports : gmap string nat;
  created : nat;
  connected : list nat;
}.

Definition initial : State :=
  {| sseTransports := ∅; created := 0; connected := [] |}.

(** [app.get("/sse", ...)]; [uuid] is what [crypto.randomUUID()] returned.
    The entry is set before [server.connect] is awaited. *)
Definition sse (uuid : string) (st : State) : State * nat :=
  let transport := created st in
  let sessionId := uuid in
  ({| sseTransports := <[sessionId := transport]> (sseTransports st);
      created := S (created st);
      connected := connected st ++ [transport] |},
   transport).

(** [res.on("close", () => { sseTransports.delete(sessionId) })] of the
    connection that was given [sessionId]. *)
Definition close (sessionId : string) (st : State) : State :=
  {| sseTransports := delete sessionId (sseTransports st);
     created := created st;
     connected := connected st |}.

Inductive Outcome : Type :=
| Status400 (error : string)
| HandlePostMessage (transport : nat).

Definition no_active_session : string :=
  "No active session. Connect to /sse first.".

(** [app.post("/messages", ...)]; [sessionId] is [req.query.sessionId],
    [None] when the query has no such string. *)
Definition messages (sessionId : option string) (st : State) : Outcome :=
  match sessionId ≫= (fun sessionId => sseTransports st !! sessionId) with
  | Some transport => HandlePostMessage transport
  | None => Status400 no_active_session
  end.

Inductive Event : Type :=
| Connect (uuid : string)
| Close (sessionId : string)
| Post (sessionId : option string).

Definition step (st : State) (ev : Event) : State :=
  match ev with
  | Connect uuid => fst (sse uuid st)
  | Close sessionId => close sessionId st
  | Post _ => st
  end.

Definition steps (st : State) (evs : list Event) : State :=
  fold_left step evs st.

End Legacy.

(** ** Further vocabulary *)

Module Wire.

(** The tools that write. *)
Definition is_write (c : ToolCall) : bool :=
  match c with
  | call_upsert_song _ _ _ _ _ _ _ _ _ _ _
  | call_upsert_list _ _ _ _ _
  | call_upsert_artist _ => true
  | _ => false
  end.

Definition is_upsert_list (c : ToolCall) : bool :=
  match c with
  | call_upsert_list _ _ _ _ _ => true
  | _ => false
  end.

Definition is_search (c : ToolCall) : bool :=
  match c with
  | call_search_songs _ _ => true
  | _ => false
  end.

(** The keys of an object, in order. *)
Definition keys {V} (o : list (string * V)) : list string := map fst o.

Definition song_keys : list string :=
  [ "title"; "chords-text"; "public"; "details"; "tags"; "id"; "spotifyUrl";
    "youtubeUrl"; "user_id" ].

Definition list_keys : list string :=
  [ "private"; "id"; "name"; "songs"; "user_uid" ].

(** The value of a hexadecimal digit. *)
Definition hex_value (c : ascii) : option N :=
  let n := N_of_ascii c in
  if is_digit c then Some (n - 48)%N
  else if (65 <=? n)%N && (n <=? 70)%N then Some (n - 55)%N
  else if (97 <=? n)%N && (n <=? 102)%N then Some (n - 87)%N
  else None.

(** Percent-decoding; with [plus_is_space], a [+] stands for a space as in
    a form-encoded value. *)
Fixpoint percent_decode (plus_is_space : bool) (s : string) : string :=
  match s with
  | EmptyString => EmptyString
  | String c rest =>
      if Ascii.eqb c "%" then
        match rest with
        | String h (String l rest') =>
            match hex_value h, hex_value l with
            | Some a, Some b =>
                String (ascii_of_N (16 * a + b)) (percent_decode plus_is_space rest')
            | _, _ => String c (percent_decode plus_is_space rest)
            end
        | _ => String c (percent_decode plus_is_space rest)
        end
      else if plus_is_space && Ascii.eqb c "+"
      then String " " (percent_decode plus_is_space rest)
      else String c (percent_decode plus_is_space rest)
  end.

(** An entry on which the filter callback of [search_songs] throws: [null],
    or an object whose [title] is neither absent, [null] nor a string. *)
Definition malformed (song : Json) : bool :=
  match song with
  | JNull => true
  | JObj fields =>
      match obj_get fields "title" with
      | None | Some JNull | Some (JStr _) => false
      | Some _ => true
      end
  | _ => false
  end.

(** Every transport created was connected, once and in the order of
    creation, and every entry of the session table names a transport that
    was created. *)
Definition consistent (st : IndexTs.ServerState) : Prop :=
  IndexTs.connected st = seq 0 (length (IndexTs.transports st))
  /\ map_Forall (fun _ transport => transport < length (IndexTs.transports st))
       (IndexTs.streamableTransports st).

(** A song with a title, or with at least one tag. *)
Definition has_title_or_tag (song : Json) : bool :=
  match Spec.title_of song with
  | Some _ => true
  | None => match Spec.tags_of song with [] => false | _ :: _ => true end
  end.

(** The calls whose [userId] cannot be escaped: those of [get_lists] and
    [search_songs] with a lone surrogate in it. *)
Definition unescapable (c : ToolCall) : bool :=
  match c with
  | call_get_lists (Some userId)
  | call_search_songs _ (Some userId) => has_lone_surrogate userId
  | _ => false
  end.

(** What a tool makes of the parsed response before it is printed: the
    search filters it, every other tool passes it on. *)
Definition finish {rt : Runtime} (c : ToolCall) (result : Json) : Result Json :=
  match c with
  | call_search_songs query _ =>
      match IndexTs.search_filter query result with
      | Ok filtered => Ok (JArr filtered)
      | Throw e => Throw e
      end
  | _ => Ok result
  end.

End Wire.

(** ** Properties *)

(** *** Strings *)

Lemma append_cons (c : ascii) (a b : string) :
  String c a +:+ b = String c (a +:+ b).
Proof. reflexivity. Qed.

Lemma append_nil_l (a : string) : "" +:+ a = a.
Proof. reflexivity. Qed.

Lemma append_assoc (a b c : string) : (a +:+ b) +:+ c = a +:+ (b +:+ c).
Proof.
  induction a as [|x a IH]; [reflexivity |].
  rewrite !append_cons. now rewrite IH.
Qed.

Lemma append_nil_r (a : string) : a +:+ "" = a.
Proof.
  induction a as [|x a IH]; [reflexivity |].
  rewrite append_cons. now rewrite IH.
Qed.

Lemma prefix_spec (sub s : string) :
  String.prefix sub s = true <-> exists post, s = sub +:+ post.
Proof.
  revert s. induction sub as [|c sub IH]; intros s.
  - split; [intros _; now exists s | now destruct s].
  - destruct s as [|d s]; simpl.
    + split; [discriminate | intros [post H]; discriminate].
    + destruct (ascii_dec c d) as [->|Hne].
      * rewrite IH. split; intros [post H]; exists post.
        -- rewrite append_cons. congruence.
        -- rewrite append_cons in H. congruence.
      * split; [discriminate |].
        intros [post H]. rewrite append_cons in H. congruence.
Qed.

Lemma includes_spec (s sub : string) :
  includes s sub = true <-> Spec.substring sub s.
Proof.
  unfold Spec.substring. induction s as [|c s IH].
  - cbn [includes]. rewrite orb_false_r, prefix_spec. split.
    + intros [post H]. now exists "", post.
    + intros [pre [post H]]. destruct pre; [now exists post | discriminate].
  - cbn [includes]. rewrite orb_true_iff, prefix_spec, IH. split.
    + intros [[post H] | [pre [post H]]].
      * now exists "", post.
      * exists (String c pre), post. rewrite append_cons. now rewrite H.
    + intros [[|d pre] [post H]].
      * left. now exists post.
      * right. exists pre, post. rewrite append_cons in H. congruence.
Qed.

Lemma includes_middle (pre sub post : string) :
  includes (pre +:+ sub +:+ post) sub = true.
Proof. apply includes_spec. now exists pre, post. Qed.

Lemma includes_end (pre sub : string) : includes (pre +:+ sub) sub = true.
Proof. apply includes_spec. exists pre, "". now rewrite append_nil_r. Qed.

(** *** The API client *)

Section ApiClient.
Context {rt : Runtime}.

Lemma run_apiRequest endpoint method body requiresAuth backend :
  run (IndexTs.apiRequest endpoint method body requiresAuth) backend =
  let call := {| url := IndexTs.API_BASE_URL +:+ endpoint;
                 options := IndexTs.request_options method body requiresAuth |} in
  (match backend call with
   | Ok response =>
       if Response.ok response then Response.json response
       else Throw (Error ("API request failed: "
                          +:+ pretty (Response.status response)
                          +:+ " - " +:+ Response.text response))
   | Throw e => Throw e
   end, [call]).
Proof.
  unfold run, IndexTs.apiRequest, mbind, Async_bind, fetch, throw, await.
  cbn [app]. destruct (backend _) as [response|e]; [|reflexivity].
  destruct (Response.ok response); reflexivity.
Qed.

Lemma run_text_content (m : Async Json) backend :
  run (result ← m; mret (IndexTs.text_content result)) backend =
  (match fst (run m backend) with
   | Ok result => Ok (IndexTs.text_content result)
   | Throw e => Throw e
   end, snd (run m backend)).
Proof.
  unfold run, mbind, Async_bind, mret, Async_ret.
  destruct (m backend []) as [[result|e] log]; reflexivity.
Qed.

Lemma request_options_headers method body requiresAuth :
  headers (IndexTs.request_options method body requiresAuth) =
  ("Content-Type", "application/json")
    :: (if requiresAuth && truthy_string IndexTs.AUTH_TOKEN
        then [("Authorization", "Bearer " +:+ IndexTs.AUTH_TOKEN)] else []).
Proof.
  unfold IndexTs.request_options.
  destruct body as [b|];
    [destruct (truthy b && _)|];
    destruct (requiresAuth && _); reflexivity.
Qed.

Lemma request_options_method method body requiresAuth :
  Js.method (IndexTs.request_options method body requiresAuth) = method.
Proof.
  unfold IndexTs.request_options.
  destruct body as [b|]; [destruct (truthy b && _)|]; reflexivity.
Qed.

End ApiClient.

(** C2. [apiRequest] issues one call whose headers are [Content-Type] and,
    exactly when [requiresAuth] holds and the configured token is not
    empty, [Authorization: Bearer <token>]; otherwise no [Authorization]
    header is sent. [upsert_list] posts to [/lists], without the header
    when no token is configured and with it when one is. *)
Theorem C2_authorization_header (rt : Runtime) :
  IndexTs.AUTH_TOKEN = default "" env_BANDMATE_AUTH_TOKEN
  /\ (forall endpoint method body requiresAuth backend,
        exists call,
          snd (run (IndexTs.apiRequest endpoint method body requiresAuth) backend)
            = [call]
          /\ headers (options call) =
               ("Content-Type", "application/json")
                 :: (if requiresAuth && truthy_string IndexTs.AUTH_TOKEN
                     then [("Authorization", "Bearer " +:+ IndexTs.AUTH_TOKEN)]
                     else [])
          /\ obj_get (headers (options call)) "Authorization" =
               if requiresAuth && truthy_string IndexTs.AUTH_TOKEN
               then Some ("Bearer " +:+ IndexTs.AUTH_TOKEN) else None)
  /\ (forall id name isPrivate songs userId backend,
        exists call,
          snd (run (IndexTs.upsert_list id name isPrivate songs userId) backend)
            = [call]
          /\ url call = IndexTs.API_BASE_URL +:+ "/lists"
          /\ method (options call) = "POST"
          /\ obj_get (headers (options call)) "Authorization" =
               if truthy_string IndexTs.AUTH_TOKEN
               then Some ("Bearer " +:+ IndexTs.AUTH_TOKEN) else None).
Proof.
  split; [|split].
  - unfold IndexTs.AUTH_TOKEN, env_or.
    destruct env_BANDMATE_AUTH_TOKEN as [[|c s]|]; reflexivity.
  - intros endpoint method body requiresAuth backend.
    rewrite run_apiRequest. cbn [snd]. eexists. split; [reflexivity|].
    cbn [options]. rewrite request_options_headers.
    split; [reflexivity|].
    destruct (requiresAuth && _); reflexivity.
  - intros id name isPrivate songs userId backend.
    unfold IndexTs.upsert_list. rewrite run_text_content, run_apiRequest.
    cbn [snd]. eexists. split; [reflexivity|].
    cbn [options url]. rewrite request_options_headers, request_options_method.
    split; [reflexivity|]. split; [reflexivity|].
    cbn [andb]. destruct (truthy_string _); reflexivity.
Qed.

(** C4. When the backend answers with a status outside 200..299,
    [apiRequest] throws an [Error] whose message holds the status code and
    the text of the response, after that single call; when the status is in
    200..299 the call returns what parsing the body as JSON gives, again
    after a single call. *)
Theorem C4_status_handling (rt : Runtime) endpoint method body requiresAuth
    (backend : Backend) (response : Response.t) :
  let call := {| url := IndexTs.API_BASE_URL +:+ endpoint;
                 options := IndexTs.request_options method body requiresAuth |} in
  let outcome := run (IndexTs.apiRequest endpoint method body requiresAuth) backend in
  backend call = Ok response ->
  (((Response.status response < 200)%Z \/ (299 < Response.status response)%Z) ->
     exists message,
       outcome = (Throw (Error message), [call])
       /\ message = "API request failed: " +:+ pretty (Response.status response)
                    +:+ " - " +:+ Response.text response
       /\ includes message (pretty (Response.status response)) = true
       /\ includes message (Response.text response) = true)
  /\ (((200 <= Response.status response)%Z /\ (Response.status response <= 299)%Z) ->
      outcome = (Response.json response, [call])).
Proof.
  intros call outcome Hresp. subst outcome. rewrite run_apiRequest.
  fold call. cbv zeta. rewrite Hresp. unfold Response.ok. split.
  - intros Hstatus.
    assert ((200 <=? Response.status response)%Z
            && (Response.status response <=? 299)%Z = false) as ->.
    { apply andb_false_iff. destruct Hstatus; [left | right]; lia. }
    eexists. split; [reflexivity|]. split; [reflexivity|]. split.
    + apply includes_middle.
    + rewrite <- append_assoc, <- append_assoc. apply includes_end.
  - intros [Hlo Hhi].
    assert ((200 <=? Response.status response)%Z
            && (Response.status response <=? 299)%Z = true) as ->.
    { apply andb_true_iff. split; lia. }
    reflexivity.
Qed.

Lemma C4_status_handling_witness :
  run (IndexTs.apiRequest (rt := Example.anonymous) "/songs/42" "GET" None false)
      (Example.responds Example.not_found)
  = (Throw (Error "API request failed: 404 - song not found"),
     [ {| url := "https://vertigox.ue.r.appspot.com/api/songs/42";
          options := {| method := "GET";
                        headers := [("Content-Type", "application/json")];
                        body := None |} |} ]).
Proof.
  destruct (C4_status_handling Example.anonymous "/songs/42" "GET" None false
              (Example.responds Example.not_found) Example.not_found eq_refl)
    as [Hfail _].
  destruct Hfail as [message [Hrun [Hmsg _]]].
  - right. vm_compute. reflexivity.
  - rewrite Hrun, Hmsg. vm_compute. reflexivity.
Defined.

(** *** The wire shape of songs and lists *)

Lemma provided_drop_falsy {A} (t : A -> bool) f k (v : option A) :
  Spec.provided t f k (Spec.drop_falsy t v) = Spec.provided t f k v.
Proof.
  unfold Spec.provided, Spec.drop_falsy, when_truthy.
  destruct v as [a|]; [|reflexivity].
  destruct (t a) eqn:Ht; [now rewrite Ht | reflexivity].
Qed.

Lemma when_truthy_drop_falsy {A B} (t : A -> bool) (v : option A)
    (k : A -> B) (o : B) :
  when_truthy t v k o =
  match Spec.drop_falsy t v with Some a => k a | None => o end.
Proof.
  unfold Spec.drop_falsy, when_truthy. destruct v as [a|]; [|reflexivity].
  now destruct (t a).
Qed.

Lemma obj_set_fresh {V} (o : list (string * V)) k v :
  obj_get o k = None -> obj_set o k v = o ++ [(k, v)].
Proof.
  induction o as [|[k' v'] o IH]; cbn [obj_get obj_set]; [reflexivity|].
  destruct (String.eqb k' k); [discriminate|].
  intros H. now rewrite IH.
Qed.

Lemma obj_get_app {V} (o1 o2 : list (string * V)) k :
  obj_get (o1 ++ o2) k =
  match obj_get o1 k with Some v => Some v | None => obj_get o2 k end.
Proof.
  induction o1 as [|[k' v'] o1 IH]; cbn [obj_get app]; [reflexivity|].
  now destruct (String.eqb k' k).
Qed.

Lemma obj_get_provided {A} (t : A -> bool) f k (v : option A) k' :
  obj_get (Spec.provided t f k v) k' =
  if String.eqb k k' then f <$> Spec.drop_falsy t v else None.
Proof.
  unfold Spec.provided, Spec.drop_falsy, when_truthy.
  destruct v as [a|]; [destruct (t a)|]; cbn [obj_get];
    destruct (String.eqb k k'); reflexivity.
Qed.

Lemma set_if_fresh {A} (t : A -> bool) f k (v : option A) o :
  obj_get o k = None -> IndexTs.set_if t f k v o = o ++ Spec.provided t f k v.
Proof.
  intros Hfresh. unfold IndexTs.set_if, Spec.provided, when_truthy.
  destruct v as [a|]; [destruct (t a)|];
    rewrite ?app_nil_r; auto using obj_set_fresh.
Qed.

(** A key that was not assigned yet. *)
Ltac fresh_key :=
  repeat first [ rewrite obj_get_app
               | rewrite obj_get_provided
               | progress cbn [obj_get String.eqb Ascii.eqb Bool.eqb] ];
  reflexivity.

Lemma songData_shape id title chordsText isPublic bpm key voice tags
    spotifyUrl youtubeUrl userId :
  IndexTs.songData id title chordsText isPublic bpm key voice tags
    spotifyUrl youtubeUrl userId =
  [ ("title", JStr title);
    ("chords-text", JStr chordsText);
    ("public", JBool isPublic);
    ("details", JObj (Spec.provided truthy_number JNum "bpm" bpm
                      ++ Spec.provided truthy_string JStr "key" key
                      ++ Spec.provided truthy_string JStr "voice" voice));
    ("tags", JArr (map JStr (default [] tags))) ]
  ++ Spec.provided truthy_string JStr "id" id
  ++ Spec.provided truthy_string JStr "spotifyUrl" spotifyUrl
  ++ Spec.provided truthy_string JStr "youtubeUrl" youtubeUrl
  ++ Spec.provided truthy_string JStr "user_id" userId.
Proof.
  unfold IndexTs.songData.
  replace (match tags with Some t => t | None => [] end) with (default [] tags)
    by now destruct tags.
  cbv zeta.
  rewrite (set_if_fresh _ _ "id") by reflexivity.
  unfold IndexTs.set_details_if.
  cbn [obj_get obj_set app String.eqb Ascii.eqb Bool.eqb].
  rewrite (set_if_fresh _ _ "bpm") by reflexivity.
  cbn [obj_get obj_set app String.eqb Ascii.eqb Bool.eqb].
  rewrite (set_if_fresh _ _ "key") by fresh_key.
  cbn [obj_get obj_set app String.eqb Ascii.eqb Bool.eqb].
  rewrite (set_if_fresh _ _ "voice") by fresh_key.
  rewrite (set_if_fresh _ _ "spotifyUrl") by fresh_key.
  rewrite (set_if_fresh _ _ "youtubeUrl") by fresh_key.
  rewrite (set_if_fresh _ _ "user_id") by fresh_key.
  cbn [app]. rewrite <- !app_assoc. reflexivity.
Qed.

Lemma listData_shape id name isPrivate songs userId :
  IndexTs.listData id name isPrivate songs userId =
  [ ("private", JBool isPrivate) ]
  ++ Spec.provided truthy_string JStr "id" id
  ++ Spec.provided truthy_string JStr "name" name
  ++ Spec.provided truthy_array (fun s => JArr (map JStr s)) "songs" songs
  ++ Spec.provided truthy_string JStr "user_uid" userId.
Proof.
  unfold IndexTs.listData. cbv zeta.
  rewrite (set_if_fresh _ _ "id") by reflexivity.
  rewrite (set_if_fresh _ _ "name") by fresh_key.
  rewrite (set_if_fresh _ _ "songs") by fresh_key.
  rewrite (set_if_fresh _ _ "user_uid") by fresh_key.
  cbn [app]. rewrite <- !app_assoc. reflexivity.
Qed.

Lemma request_options_post_object (rt : Runtime) fields requiresAuth :
  body (IndexTs.request_options "POST" (Some (JObj fields)) requiresAuth)
  = Some (JSON_stringify (JObj fields) 0).
Proof.
  unfold IndexTs.request_options. cbn [truthy andb].
  now destruct (requiresAuth && _).
Qed.

Lemma upsert_song_call (rt : Runtime) id title chordsText isPublic bpm key
    voice tags spotifyUrl youtubeUrl userId backend :
  exists call,
    snd (run (IndexTs.upsert_song id title chordsText isPublic bpm key voice
                tags spotifyUrl youtubeUrl userId) backend) = [call]
    /\ url call = IndexTs.API_BASE_URL +:+ "/songs"
    /\ method (options call) = "POST"
    /\ body (options call) =
         Some (JSON_stringify
                 (JObj (IndexTs.songData id title chordsText isPublic bpm key
                          voice tags spotifyUrl youtubeUrl userId)) 0).
Proof.
  unfold IndexTs.upsert_song. cbv zeta.
  rewrite run_text_content, run_apiRequest. cbn [snd].
  eexists. split; [reflexivity|]. cbn [url options].
  rewrite request_options_method, request_options_post_object. auto.
Qed.

Lemma upsert_list_call (rt : Runtime) id name isPrivate songs userId backend :
  exists call,
    snd (run (IndexTs.upsert_list id name isPrivate songs userId) backend) = [call]
    /\ url call = IndexTs.API_BASE_URL +:+ "/lists"
    /\ method (options call) = "POST"
    /\ body (options call) =
         Some (JSON_stringify
                 (JObj (IndexTs.listData id name isPrivate songs userId)) 0).
Proof.
  unfold IndexTs.upsert_list. cbv zeta.
  rewrite run_text_content, run_apiRequest. cbn [snd].
  eexists. split; [reflexivity|]. cbn [url options].
  rewrite request_options_method, request_options_post_object. auto.
Qed.

Lemma provided_supplied {A} (t : A -> bool) f k (v : option A) :
  Spec.provided t f k v = Spec.supplied f k (Spec.drop_falsy t v).
Proof.
  unfold Spec.provided, Spec.supplied, Spec.drop_falsy, when_truthy.
  destruct v as [a|]; [destruct (t a)|]; reflexivity.
Qed.

(** C1, as it holds. [upsert_song] posts the serialization of [songData];
    its [details] field is always present and holds exactly the keys among
    [bpm], [key], [voice] that were supplied with a truthy value ([bpm]
    other than [0] and [NaN], [key] and [voice] other than the empty
    string), in that order and with the values given. With the three
    omitted, [details] is the empty object. *)
Theorem C1_details_truthy (rt : Runtime) id title chordsText isPublic bpm key
    voice tags spotifyUrl youtubeUrl userId backend :
  (exists call,
     snd (run (IndexTs.upsert_song id title chordsText isPublic bpm key voice
                 tags spotifyUrl youtubeUrl userId) backend) = [call]
     /\ url call = IndexTs.API_BASE_URL +:+ "/songs"
     /\ method (options call) = "POST"
     /\ body (options call) =
          Some (JSON_stringify
                  (JObj (IndexTs.songData id title chordsText isPublic bpm key
                           voice tags spotifyUrl youtubeUrl userId)) 0))
  /\ obj_get (IndexTs.songData id title chordsText isPublic bpm key voice tags
                spotifyUrl youtubeUrl userId) "details"
     = Some (JObj (Spec.details_of_supplied
                     (Spec.drop_falsy truthy_number bpm)
                     (Spec.drop_falsy truthy_string key)
                     (Spec.drop_falsy truthy_string voice)))
  /\ obj_get (IndexTs.songData id title chordsText isPublic None None None tags
                spotifyUrl youtubeUrl userId) "details"
     = Some (JObj []).
Proof.
  split; [apply upsert_song_call|].
  rewrite !songData_shape. unfold Spec.details_of_supplied.
  rewrite !provided_supplied. split; reflexivity.
Qed.

(** C1, as stated, fails: a [bpm] of [0] is supplied and yet [details] does
    not hold it. *)
Lemma C1_counterexample :
  obj_get (IndexTs.songData None "Song" "C G Am F" false
             (Some (S754_zero false)) None None None None None None) "details"
  = Some (JObj [])
  /\ Spec.details_of_supplied (Some (S754_zero false)) None None
     = [("bpm", JNum (S754_zero false))]
  /\ obj_get (IndexTs.songData None "Song" "C G Am F" false
                (Some (S754_zero false)) None None None None None None) "details"
     <> Some (JObj (Spec.details_of_supplied (Some (S754_zero false)) None None)).
Proof. split; [reflexivity|]. split; [reflexivity|]. discriminate. Qed.

(** C8. The body of [upsert_song] carries [chordsText] under
    ["chords-text"], [isPublic] under ["public"] and a truthy [userId]
    under ["user_id"]; the body of [upsert_list] carries [isPrivate] under
    ["private"] and a truthy [userId] under ["user_uid"]. The camelCase
    names are keys of neither body. *)
Theorem C8_wire_names (rt : Runtime) id title chordsText isPublic bpm key
    voice tags spotifyUrl youtubeUrl userId
    listId name isPrivate songs ownerId backend :
  let songData := IndexTs.songData id title chordsText isPublic bpm key voice
                    tags spotifyUrl youtubeUrl userId in
  let listData := IndexTs.listData listId name isPrivate songs ownerId in
  ((exists call,
      snd (run (IndexTs.upsert_song id title chordsText isPublic bpm key voice
                  tags spotifyUrl youtubeUrl userId) backend) = [call]
      /\ body (options call) = Some (JSON_stringify (JObj songData) 0))
   /\ obj_get songData "chords-text" = Some (JStr chordsText)
   /\ obj_get songData "public" = Some (JBool isPublic)
   /\ obj_get songData "user_id" = JStr <$> Spec.drop_falsy truthy_string userId
   /\ obj_get songData "chordsText" = None
   /\ obj_get songData "isPublic" = None
   /\ obj_get songData "userId" = None)
  /\ ((exists call,
         snd (run (IndexTs.upsert_list listId name isPrivate songs ownerId)
                backend) = [call]
         /\ body (options call) = Some (JSON_stringify (JObj listData) 0))
      /\ obj_get listData "private" = Some (JBool isPrivate)
      /\ obj_get listData "user_uid" = JStr <$> Spec.drop_falsy truthy_string ownerId
      /\ obj_get listData "isPrivate" = None
      /\ obj_get listData "userId" = None).
Proof.
  intros songData listData. split.
  - split.
    { destruct (upsert_song_call rt id title chordsText isPublic bpm key voice
                  tags spotifyUrl youtubeUrl userId backend)
        as [call [Hlog [_ [_ Hbody]]]].
      now exists call. }
    subst songData. rewrite songData_shape.
    repeat split; fresh_key.
  - split.
    { destruct (upsert_list_call rt listId name isPrivate songs ownerId backend)
        as [call [Hlog [_ [_ Hbody]]]].
      now exists call. }
    subst listData. rewrite listData_shape.
    repeat split; fresh_key.
Qed.

(** C9. For [upsert_song] and [upsert_list] a supplied optional parameter
    whose value is falsy is treated as absent: the object built, and hence
    the request issued, is the one built with the parameter omitted. A
    [bpm] of [0] and an empty [id], [key], [voice], [spotifyUrl],
    [youtubeUrl], [userId] or [name] leave no key in the body. *)
Theorem C9_falsy_is_absent (rt : Runtime) id title chordsText isPublic bpm key
    voice tags spotifyUrl youtubeUrl userId
    listId name isPrivate songs ownerId sign :
  Spec.drop_falsy truthy_number (Some (S754_zero sign)) = None
  /\ Spec.drop_falsy truthy_string (Some "") = None
  /\ IndexTs.songData id title chordsText isPublic bpm key voice tags
       spotifyUrl youtubeUrl userId
     = IndexTs.songData (Spec.drop_falsy truthy_string id) title chordsText isPublic
         (Spec.drop_falsy truthy_number bpm) (Spec.drop_falsy truthy_string key)
         (Spec.drop_falsy truthy_string voice) tags (Spec.drop_falsy truthy_string spotifyUrl)
         (Spec.drop_falsy truthy_string youtubeUrl) (Spec.drop_falsy truthy_string userId)
  /\ IndexTs.upsert_song id title chordsText isPublic bpm key voice tags
       spotifyUrl youtubeUrl userId
     = IndexTs.upsert_song (Spec.drop_falsy truthy_string id) title chordsText isPublic
         (Spec.drop_falsy truthy_number bpm) (Spec.drop_falsy truthy_string key)
         (Spec.drop_falsy truthy_string voice) tags (Spec.drop_falsy truthy_string spotifyUrl)
         (Spec.drop_falsy truthy_string youtubeUrl) (Spec.drop_falsy truthy_string userId)
  /\ IndexTs.listData listId name isPrivate songs ownerId
     = IndexTs.listData (Spec.drop_falsy truthy_string listId) (Spec.drop_falsy truthy_string name)
         isPrivate songs (Spec.drop_falsy truthy_string ownerId)
  /\ IndexTs.upsert_list listId name isPrivate songs ownerId
     = IndexTs.upsert_list (Spec.drop_falsy truthy_string listId)
         (Spec.drop_falsy truthy_string name) isPrivate songs (Spec.drop_falsy truthy_string ownerId)
  /\ IndexTs.songData (Some "") title chordsText isPublic
       (Some (S754_zero sign)) (Some "") (Some "") tags (Some "") (Some "")
       (Some "")
     = [ ("title", JStr title); ("chords-text", JStr chordsText);
         ("public", JBool isPublic); ("details", JObj []);
         ("tags", JArr (map JStr (default [] tags))) ]
  /\ IndexTs.listData (Some "") (Some "") isPrivate None (Some "")
     = [ ("private", JBool isPrivate) ].
Proof.
  assert (IndexTs.songData id title chordsText isPublic bpm key voice tags
            spotifyUrl youtubeUrl userId
          = IndexTs.songData (Spec.drop_falsy truthy_string id) title chordsText
              isPublic (Spec.drop_falsy truthy_number bpm) (Spec.drop_falsy truthy_string key)
              (Spec.drop_falsy truthy_string voice) tags
              (Spec.drop_falsy truthy_string spotifyUrl)
              (Spec.drop_falsy truthy_string youtubeUrl)
              (Spec.drop_falsy truthy_string userId)) as Hsong.
  { rewrite !songData_shape, !provided_drop_falsy. reflexivity. }
  assert (IndexTs.listData listId name isPrivate songs ownerId
          = IndexTs.listData (Spec.drop_falsy truthy_string listId)
              (Spec.drop_falsy truthy_string name) isPrivate songs
              (Spec.drop_falsy truthy_string ownerId)) as Hlist.
  { rewrite !listData_shape, !provided_drop_falsy. reflexivity. }
  split; [reflexivity|]. split; [reflexivity|].
  split; [exact Hsong|].
  split; [unfold IndexTs.upsert_song; cbv zeta; now rewrite <- Hsong|].
  split; [exact Hlist|].
  split; [unfold IndexTs.upsert_list; cbv zeta; now rewrite <- Hlist|].
  split; [now rewrite songData_shape | now rewrite listData_shape].
Qed.

(** *** Query strings *)

Lemma char_in_append c a b : char_in c (a +:+ b) = char_in c a || char_in c b.
Proof.
  induction a as [|x a IH]; [reflexivity|].
  rewrite append_cons. cbn [char_in]. now rewrite IH, orb_assoc.
Qed.

Lemma char_in_flat_map c f s :
  (forall x, char_in c (f x) = false) -> char_in c (string_flat_map f s) = false.
Proof.
  intros Hf. induction s as [|x s IH]; [reflexivity|].
  cbn [string_flat_map]. now rewrite char_in_append, Hf, IH.
Qed.

(** The form encoding leaves no delimiter of a query string in a value. *)
Lemma form_urlencode_delimiters s :
  char_in "&" (form_urlencode s) = false
  /\ char_in "=" (form_urlencode s) = false
  /\ char_in "?" (form_urlencode s) = false.
Proof.
  unfold form_urlencode.
  repeat split; apply char_in_flat_map;
    intros [[] [] [] [] [] [] [] []]; vm_compute; reflexivity.
Qed.

Lemma break_at_absent sep a :
  char_in sep a = false -> Spec.break_at sep a = (a, None).
Proof.
  induction a as [|x a IH]; [reflexivity|].
  cbn [char_in Spec.break_at]. rewrite (Ascii.eqb_sym sep x).
  destruct (Ascii.eqb x sep); [discriminate|].
  cbn [orb]. intros H. now rewrite IH.
Qed.

Lemma break_at_first sep a b :
  char_in sep a = false ->
  Spec.break_at sep (a +:+ String sep b) = (a, Some b).
Proof.
  induction a as [|x a IH].
  - intros _. rewrite append_nil_l. cbn [Spec.break_at].
    now rewrite Ascii.eqb_refl.
  - rewrite append_cons. cbn [char_in Spec.break_at].
    rewrite (Ascii.eqb_sym sep x).
    destruct (Ascii.eqb x sep); [discriminate|].
    cbn [orb]. intros H. now rewrite IH.
Qed.

Lemma split_on_absent sep a :
  char_in sep a = false -> Spec.split_on sep a = [a].
Proof.
  induction a as [|x a IH]; [reflexivity|].
  cbn [char_in Spec.split_on]. rewrite (Ascii.eqb_sym sep x).
  destruct (Ascii.eqb x sep); [discriminate|].
  cbn [orb]. intros H. now rewrite IH.
Qed.

Lemma query_params_single name value :
  char_in "?" name = false -> char_in "=" name = false ->
  char_in "&" name = false ->
  Spec.query_params ("/songs?" +:+ name +:+ "=" +:+ form_urlencode value)
  = [(name, form_urlencode value)].
Proof.
  intros Hq He Ha. unfold Spec.query_params.
  destruct (form_urlencode_delimiters value) as [Hamp [Heq Hqm]].
  change ("/songs?" +:+ name +:+ "=" +:+ form_urlencode value)
    with ("/songs" +:+ String "?" (name +:+ "=" +:+ form_urlencode value)).
  rewrite break_at_first by reflexivity. cbn [snd].
  rewrite split_on_absent.
  - cbn [map].
    change (name +:+ "=" +:+ form_urlencode value)
      with (name +:+ String "=" (form_urlencode value)).
    now rewrite break_at_first.
  - rewrite !char_in_append, Ha, Hamp. reflexivity.
Qed.

Lemma get_songs_endpoint_ids userId ids i :
  ids = Some i -> truthy_string i = true ->
  IndexTs.get_songs_endpoint userId ids = "/songs?ids=" +:+ form_urlencode i.
Proof.
  intros -> Hi. unfold IndexTs.get_songs_endpoint, when_truthy.
  rewrite Hi. reflexivity.
Qed.

Lemma get_songs_endpoint_userId userId ids u :
  Spec.drop_falsy truthy_string ids = None ->
  userId = Some u -> truthy_string u = true ->
  IndexTs.get_songs_endpoint userId ids = "/songs?userId=" +:+ form_urlencode u.
Proof.
  intros Hids -> Hu. unfold IndexTs.get_songs_endpoint.
  rewrite (when_truthy_drop_falsy _ ids), Hids.
  unfold when_truthy. rewrite Hu. reflexivity.
Qed.

Lemma get_songs_endpoint_none userId ids :
  Spec.drop_falsy truthy_string ids = None ->
  Spec.drop_falsy truthy_string userId = None ->
  IndexTs.get_songs_endpoint userId ids = "/songs".
Proof.
  intros Hids Hu. unfold IndexTs.get_songs_endpoint.
  now rewrite (when_truthy_drop_falsy _ ids), Hids,
    (when_truthy_drop_falsy _ userId), Hu.
Qed.

(** C3. [get_songs] issues one GET to [/songs]. When [ids] is supplied and
    not empty, the query string is [ids=<ids>], whatever [userId] is, and
    [ids] is its only parameter; when only [userId] is supplied (and not
    empty), the only parameter is [userId]; when neither is, there is no
    query string. *)
Theorem C3_get_songs_query (rt : Runtime) userId ids backend :
  let endpoint := IndexTs.get_songs_endpoint userId ids in
  (exists call,
     snd (run (IndexTs.get_songs userId ids) backend) = [call]
     /\ url call = IndexTs.API_BASE_URL +:+ endpoint
     /\ method (options call) = "GET")
  /\ (forall i, ids = Some i -> truthy_string i = true ->
        endpoint = "/songs?ids=" +:+ form_urlencode i
        /\ Spec.query_params endpoint = [("ids", form_urlencode i)])
  /\ (forall u, Spec.drop_falsy truthy_string ids = None ->
        userId = Some u -> truthy_string u = true ->
        endpoint = "/songs?userId=" +:+ form_urlencode u
        /\ Spec.query_params endpoint = [("userId", form_urlencode u)])
  /\ (Spec.drop_falsy truthy_string ids = None ->
      Spec.drop_falsy truthy_string userId = None ->
      endpoint = "/songs" /\ Spec.query_params endpoint = []).
Proof.
  intros endpoint. subst endpoint. split; [|split; [|split]].
  - unfold IndexTs.get_songs. rewrite run_text_content, run_apiRequest.
    cbn [snd]. eexists. split; [reflexivity|]. cbn [url options].
    now rewrite request_options_method.
  - intros i Hids Hi. rewrite (get_songs_endpoint_ids _ _ i Hids Hi).
    split; [reflexivity|].
    now apply (query_params_single "ids").
  - intros u Hids Hu Htruthy.
    rewrite (get_songs_endpoint_userId _ _ u Hids Hu Htruthy).
    split; [reflexivity|].
    now apply (query_params_single "userId").
  - intros Hids Hu. rewrite (get_songs_endpoint_none _ _ Hids Hu).
    split; reflexivity.
Qed.

Lemma C3_get_songs_query_witness :
  IndexTs.get_songs_endpoint (Some "user 1") (Some "a1,b2")
    = "/songs?ids=a1%2Cb2"
  /\ Spec.query_params (IndexTs.get_songs_endpoint (Some "user 1") (Some "a1,b2"))
     = [("ids", "a1%2Cb2")].
Proof.
  destruct (C3_get_songs_query Example.anonymous (Some "user 1") (Some "a1,b2")
              (Example.responds Example.not_found)) as [_ [Hids _]].
  exact (Hids "a1,b2" eq_refl eq_refl).
Defined.

(** *** Searching *)








Lemma run_bind {A B} (m : Async A) (k : A -> Async B) backend :
  run (x ← m; k x) backend =
  match run m backend with
  | (Ok a, log) => k a backend log
  | (Throw e, log) => (Throw e, log)
  end.
Proof. reflexivity. Qed.

Lemma Array_filter_total {A} (f : A -> Result bool) (g : A -> bool) l :
  Forall (fun x => f x = Ok (g x)) l ->
  Array_filter f l = Ok (List.filter g l).
Proof.
  induction 1 as [|x l Hx _ IH]; [reflexivity|].
  cbn [Array_filter List.filter]. now rewrite Hx, IH.
Qed.

Section Searching.
Context {rt : Runtime}.

Lemma Array_some_strings queryLower tags :
  forallb Spec.is_string tags = true ->
  Array_some (IndexTs.lower_includes queryLower) tags
  = Ok (existsb (fun tag => includes (toLowerCase tag) queryLower)
          (omap Spec.string_of tags)).
Proof.
  induction tags as [|tag tags IH]; [reflexivity|].
  cbn [forallb]. intros [Htag Htags]%andb_true_iff.
  destruct tag; try discriminate.
  cbn [Array_some IndexTs.lower_includes omap list_omap Spec.string_of existsb].
  destruct (includes (toLowerCase s) queryLower); [reflexivity|].
  now rewrite IH.
Qed.

Lemma song_matches_typed query song :
  Spec.is_song song = true ->
  IndexTs.song_matches (toLowerCase query) song = Ok (Spec.matchesb query song).
Proof.
  destruct song as [| | | | |fields]; try discriminate; try reflexivity.
  unfold Spec.is_song, IndexTs.song_matches, IndexTs.titleMatch,
    IndexTs.tagsMatch, Spec.matchesb, Spec.title_of, Spec.tags_of, prop.
  intros [Htitle Htags]%andb_true_iff.
  destruct (obj_get fields "title") as [[| | |title| |]|]; try discriminate;
    destruct (obj_get fields "tags") as [[| | | |tags|]|]; try discriminate;
    cbn [mbind Result_bind IndexTs.lower_includes truthy_opt existsb];
    rewrite ?Array_some_strings by assumption;
    cbn [mbind Result_bind truthy_opt id orb];
    try reflexivity;
    now destruct (includes (toLowerCase title) (toLowerCase query)).
Qed.

Lemma search_filter_typed query result songs :
  IndexTs.songs_of result = Ok (JArr songs) ->
  forallb Spec.is_song songs = true ->
  IndexTs.search_filter query result
  = Ok (List.filter (Spec.matchesb query) songs).
Proof.
  intros Hsongs Htyped. unfold IndexTs.search_filter.
  rewrite Hsongs. cbn [mbind Result_bind].
  apply Array_filter_total.
  apply Forall_forall. intros song Hin%list_elem_of_In.
  apply song_matches_typed.
  rewrite forallb_forall in Htyped. now apply Htyped.
Qed.

Lemma matchesb_spec query song :
  Spec.matchesb query song = true <-> Spec.matches query song.
Proof.
  unfold Spec.matchesb, Spec.matches.
  rewrite orb_true_iff, existsb_exists. split.
  - intros [Htitle | [tag [Hin Htag]]].
    + left. destruct (Spec.title_of song) as [title|]; [|discriminate].
      exists title. split; [reflexivity | now apply includes_spec].
    + right. exists tag. split; [assumption | now apply includes_spec].
  - intros [[title [-> Hsub]] | [tag [Hin Hsub]]].
    + left. now apply includes_spec.
    + right. exists tag. split; [assumption | now apply includes_spec].
Qed.


End Searching.



(** *** The session table *)

Lemma mcp_table req st :
  IndexTs.streamableTransports (fst (IndexTs.mcp req st))
  = IndexTs.streamableTransports st.
Proof.
  unfold IndexTs.mcp.
  destruct (when_truthy _ _ _ _); [reflexivity|].
  destruct (negb _ && _); reflexivity.
Qed.

Lemma mcp_rejects req st :
  when_truthy truthy_string (IndexTs.Express.headers req !! "mcp-session-id")
    (fun sessionId => IndexTs.streamableTransports st !! sessionId) None = None ->
  negb (truthy_opt truthy_string (IndexTs.Express.headers req !! "mcp-session-id"))
  && String.eqb (IndexTs.Express.method req) "POST" = false ->
  IndexTs.mcp req st = (st, IndexTs.Status400 IndexTs.bad_request).
Proof. intros Hknown Hinit. unfold IndexTs.mcp. now rewrite Hknown, Hinit. Qed.

Lemma truthy_string_nonempty s : s <> "" -> truthy_string s = true.
Proof. now destruct s. Qed.

Lemma mcp_unknown_session req st sid :
  IndexTs.Express.headers req !! "mcp-session-id" = Some sid ->
  sid <> "" ->
  IndexTs.streamableTransports st !! sid = None ->
  IndexTs.mcp req st = (st, IndexTs.Status400 IndexTs.bad_request).
Proof.
  intros Hsid Hne Hunknown. apply mcp_rejects; rewrite Hsid.
  - unfold when_truthy. now rewrite truthy_string_nonempty.
  - cbn [truthy_opt]. now rewrite truthy_string_nonempty.
Qed.

(** C6, as it holds. A request to [/mcp] that presents a non-empty session
    identifier absent from the session table, or that presents none (or an
    empty one) and is not a POST, is answered with status 400; the state is
    left as it was: no transport is created or connected, the session table
    is unchanged, and the request is handed to no transport, so no tool
    runs and no backend call is made. *)
Theorem C6_rejected_requests (req : IndexTs.Express.Request)
    (st : IndexTs.ServerState) :
  let sessionId := IndexTs.Express.headers req !! "mcp-session-id" in
  (exists sid, sessionId = Some sid /\ sid <> ""
               /\ IndexTs.streamableTransports st !! sid = None)
  \/ ((sessionId = None \/ sessionId = Some "")
      /\ IndexTs.Express.method req <> "POST") ->
  IndexTs.mcp req st = (st, IndexTs.Status400 IndexTs.bad_request).
Proof.
  intros sessionId [[sid [Hsid [Hne Hunknown]]] | [Hnone Hmethod]].
  - now apply (mcp_unknown_session req st sid).
  - assert (String.eqb (IndexTs.Express.method req) "POST" = false) as Hpost
      by now apply String.eqb_neq.
    subst sessionId. apply mcp_rejects.
    + destruct Hnone as [-> | ->]; reflexivity.
    + rewrite Hpost. apply andb_false_r.
Qed.

Lemma C6_rejected_requests_witness :
  IndexTs.mcp (Example.with_session "DELETE" Example.uuid1) IndexTs.initial
  = (IndexTs.initial, IndexTs.Status400 IndexTs.bad_request).
Proof.
  apply C6_rejected_requests. left. exists Example.uuid1.
  split; [reflexivity|]. split; [discriminate | reflexivity].
Defined.

(** C6, as stated, fails: a POST whose session header is present and empty
    presents an identifier that the table does not hold, and yet it is
    taken for a handshake: a transport is created and connected. *)
Lemma C6_counterexample :
  IndexTs.Express.headers Example.empty_session_header !! "mcp-session-id"
    = Some ""
  /\ IndexTs.streamableTransports IndexTs.initial !! "" = None
  /\ IndexTs.mcp Example.empty_session_header IndexTs.initial
     = ({| IndexTs.streamableTransports := ∅;
           IndexTs.transports := [ {| IndexTs.sessionId := None |} ];
           IndexTs.connected := [0] |},
        IndexTs.Connect 0)
  /\ IndexTs.mcp Example.empty_session_header IndexTs.initial
     <> (IndexTs.initial, IndexTs.Status400 IndexTs.bad_request).
Proof.
  split; [reflexivity|]. split; [reflexivity|].
  split; [reflexivity | discriminate].
Qed.

Lemma onclose_table transport st sid :
  IndexTs.streamableTransports st !! sid = None ->
  IndexTs.streamableTransports (IndexTs.onclose transport st) !! sid = None.
Proof.
  intros Habsent. unfold IndexTs.onclose.
  destruct (IndexTs.transports st !! transport) as [t|]; [|assumption].
  rewrite when_truthy_drop_falsy.
  destruct (Spec.drop_falsy _ _) as [closing|]; [|assumption].
  cbn [IndexTs.streamableTransports].
  destruct (decide (closing = sid)) as [->|Hne].
  - apply lookup_delete_eq.
  - now rewrite lookup_delete_ne.
Qed.

(** Only the completed handshake of a session adds its entry. *)
Lemma step_adds_only_on_initialized st ev sid :
  IndexTs.streamableTransports st !! sid = None ->
  is_Some (IndexTs.streamableTransports (IndexTs.step st ev) !! sid) ->
  exists transport, ev = IndexTs.Initialized transport sid.
Proof.
  intros Habsent Hadded. destruct ev as [req|transport uuid|transport].
  - cbn [IndexTs.step] in Hadded. rewrite mcp_table, Habsent in Hadded.
    now destruct Hadded.
  - cbn [IndexTs.step] in Hadded.
    destruct (IndexTs.transports st !! transport).
    + cbn [IndexTs.onsessioninitialized IndexTs.streamableTransports] in Hadded.
      destruct (decide (uuid = sid)) as [->|Hne]; [now exists transport|].
      rewrite lookup_insert_ne, Habsent in Hadded by assumption.
      now destruct Hadded.
    + rewrite Habsent in Hadded. now destruct Hadded.
  - cbn [IndexTs.step] in Hadded.
    rewrite (onclose_table _ _ _ Habsent) in Hadded. now destruct Hadded.
Qed.

Lemma steps_keep_absent st evs sid :
  IndexTs.streamableTransports st !! sid = None ->
  (forall transport, ~ In (IndexTs.Initialized transport sid) evs) ->
  IndexTs.streamableTransports (IndexTs.steps st evs) !! sid = None.
Proof.
  revert st. induction evs as [|ev evs IH]; intros st Habsent Hnever.
  - assumption.
  - cbn [IndexTs.steps fold_left]. apply IH.
    + destruct (IndexTs.streamableTransports (IndexTs.step st ev) !! sid)
        as [t|] eqn:Hlookup; [|reflexivity].
      destruct (step_adds_only_on_initialized st ev sid Habsent) as [t' ->].
      { rewrite Hlookup. now exists t. }
      exfalso. apply (Hnever t'). now left.
    + intros transport Hin. apply (Hnever transport). now right.
Qed.

Lemma onclose_removes st transport t sid :
  IndexTs.transports st !! transport = Some t ->
  IndexTs.sessionId t = Some sid ->
  sid <> "" ->
  IndexTs.streamableTransports (IndexTs.onclose transport st)
  = delete sid (IndexTs.streamableTransports st).
Proof.
  intros Ht Hsid Hne. unfold IndexTs.onclose. rewrite Ht, Hsid.
  unfold when_truthy. now rewrite truthy_string_nonempty.
Qed.

(** C7. The handler of [/mcp] never writes the session table, not even
    when it creates a transport; an identifier enters the table only with
    the [onsessioninitialized] signal of its handshake, which binds it to
    the signalling transport. When the transport of a session (whose
    identifier, drawn from [crypto.randomUUID], is not empty) signals
    closure, the entry under its identifier is removed, and from then on,
    as long as no handshake registers that identifier again, every request
    presenting it is answered with status 400 and changes nothing. *)
Theorem C7_session_lifecycle :
  (forall req st,
     IndexTs.streamableTransports (fst (IndexTs.mcp req st))
     = IndexTs.streamableTransports st)
  /\ (forall st ev sid,
        IndexTs.streamableTransports st !! sid = None ->
        is_Some (IndexTs.streamableTransports (IndexTs.step st ev) !! sid) ->
        exists transport, ev = IndexTs.Initialized transport sid)
  /\ (forall st transport uuid,
        is_Some (IndexTs.transports st !! transport) ->
        IndexTs.streamableTransports
          (IndexTs.step st (IndexTs.Initialized transport uuid)) !! uuid
        = Some transport)
  /\ (forall st transport t sid,
        IndexTs.transports st !! transport = Some t ->
        IndexTs.sessionId t = Some sid ->
        sid <> "" ->
        let closed := IndexTs.step st (IndexTs.Closed transport) in
        IndexTs.streamableTransports closed
          = delete sid (IndexTs.streamableTransports st)
        /\ IndexTs.streamableTransports closed !! sid = None
        /\ forall evs req,
             (forall transport', ~ In (IndexTs.Initialized transport' sid) evs) ->
             IndexTs.Express.headers req !! "mcp-session-id" = Some sid ->
             IndexTs.mcp req (IndexTs.steps closed evs)
             = (IndexTs.steps closed evs,
                IndexTs.Status400 IndexTs.bad_request)).
Proof.
  split; [apply mcp_table|]. split; [apply step_adds_only_on_initialized|].
  split.
  - intros st transport uuid [t Ht]. cbn [IndexTs.step]. rewrite Ht.
    cbn [IndexTs.onsessioninitialized IndexTs.streamableTransports].
    apply lookup_insert_eq.
  - intros st transport t sid Ht Hsid Hne closed.
    assert (IndexTs.streamableTransports closed
            = delete sid (IndexTs.streamableTransports st)) as Htable
      by now apply (onclose_removes st transport t sid).
    assert (IndexTs.streamableTransports closed !! sid = None) as Hgone
      by (rewrite Htable; apply lookup_delete_eq).
    split; [assumption|]. split; [assumption|].
    intros evs req Hnever Hreq.
    apply (mcp_unknown_session req _ sid); try assumption.
    now apply steps_keep_absent.
Qed.

Lemma C7_session_lifecycle_witness :
  IndexTs.streamableTransports Example.one_session !! Example.uuid1 = Some 0
  /\ IndexTs.mcp (Example.with_session "POST" Example.uuid1)
       (IndexTs.steps (IndexTs.step Example.one_session (IndexTs.Closed 0))
          [IndexTs.Inbound Example.handshake])
     = (IndexTs.steps (IndexTs.step Example.one_session (IndexTs.Closed 0))
          [IndexTs.Inbound Example.handshake],
        IndexTs.Status400 IndexTs.bad_request).
Proof.
  split; [reflexivity|].
  destruct C7_session_lifecycle as [_ [_ [_ Hclose]]].
  destruct (Hclose Example.one_session 0
              {| IndexTs.sessionId := Some Example.uuid1 |} Example.uuid1
              eq_refl eq_refl) as [_ [_ Hstale]]; [discriminate|].
  apply Hstale; [|reflexivity].
  intros transport' [Hin|[]]. discriminate.
Defined.

(** *** The two variants *)

(** C10. The file that registers its tools with [server.tool] and the one
    that registers them with [server.registerTool] expose the same tool
    names, and for every tool and every parameter record the two handlers
    are the same computation: run against the same backend they issue the
    same request (URL, method, headers, body) and give the same tool result
    or the same failure. *)
Theorem C10_variants_agree (rt : Runtime) :
  IndexTs.registered_tools = Part001.registered_tools
  /\ (forall c, In (tool_name c) IndexTs.registered_tools)
  /\ IndexTs.API_BASE_URL = Part001.API_BASE_URL
  /\ (forall method body requiresAuth,
        IndexTs.request_options method body requiresAuth
        = Part001.request_options method body requiresAuth)
  /\ (forall c, IndexTs.call_tool c = Part001.call_tool c)
  /\ (forall c backend,
        run (IndexTs.call_tool c) backend = run (Part001.call_tool c) backend).
Proof.
  split; [reflexivity|].
  split; [intros c; destruct c; cbn; tauto|].
  split; [reflexivity|].
  split; [reflexivity|].
  assert (forall c, IndexTs.call_tool c = Part001.call_tool c) as Hsame
    by (intros c; destruct c; reflexivity).
  split; [exact Hsame|].
  intros c backend. now rewrite Hsame.
Qed.

(** *** Every tool, one request *)

Lemma get_lists_endpoint_cases userId :
  IndexTs.get_lists_endpoint userId =
  match Spec.drop_falsy truthy_string userId with
  | Some u =>
      if has_lone_surrogate u then Throw (URIError "URI malformed")
      else Ok ("/lists?userId=" +:+ escape_component u)
  | None => Ok "/lists"
  end.
Proof.
  unfold IndexTs.get_lists_endpoint. rewrite when_truthy_drop_falsy.
  destruct (Spec.drop_falsy truthy_string userId) as [u|]; [|reflexivity].
  unfold encodeURIComponent. now destruct (has_lone_surrogate u).
Qed.

Lemma search_songs_endpoint_cases userId :
  IndexTs.search_songs_endpoint userId =
  match Spec.drop_falsy truthy_string userId with
  | Some u =>
      if has_lone_surrogate u then Throw (URIError "URI malformed")
      else Ok ("/songs?userId=" +:+ escape_component u)
  | None => Ok "/songs"
  end.
Proof.
  unfold IndexTs.search_songs_endpoint. rewrite when_truthy_drop_falsy.
  destruct (Spec.drop_falsy truthy_string userId) as [u|]; [|reflexivity].
  unfold encodeURIComponent. now destruct (has_lone_surrogate u).
Qed.

Lemma drop_falsy_surrogate userId :
  match userId with Some u => has_lone_surrogate u | None => false end
  = match Spec.drop_falsy truthy_string userId with
    | Some u => has_lone_surrogate u
    | None => false
    end.
Proof. now destruct userId as [[|c u]|]. Qed.

(** An endpoint whose escaping fails exactly on the unescapable calls. *)
Lemma escaped_endpoint_cases (bare prefix : string) userId
    (endpoint : Result string) :
  endpoint =
  match Spec.drop_falsy truthy_string userId with
  | Some u =>
      if has_lone_surrogate u then Throw (URIError "URI malformed")
      else Ok (prefix +:+ escape_component u)
  | None => Ok bare
  end ->
  (if match userId with Some u => has_lone_surrogate u | None => false end
   then exists msg, endpoint = Throw (URIError msg)
   else exists e, endpoint = Ok e).
Proof.
  intros ->. rewrite drop_falsy_surrogate.
  destruct (Spec.drop_falsy truthy_string userId) as [u|]; [|eauto].
  destruct (has_lone_surrogate u); eauto.
Qed.

Lemma call_tool_run (rt : Runtime) c backend :
  exists (endpoint : Result string) method body,
    method = (if Wire.is_write c then "POST" else "GET")
    /\ (if Wire.is_write c then exists fields, body = Some (JObj fields)
        else body = None)
    /\ (if Wire.unescapable c then exists msg, endpoint = Throw (URIError msg)
        else exists e, endpoint = Ok e)
    /\ run (IndexTs.call_tool c) backend =
       match endpoint with
       | Throw e => (Throw e, [])
       | Ok endpoint =>
           let outcome :=
             run (IndexTs.apiRequest endpoint method body
                    (Wire.is_upsert_list c)) backend in
           (match fst outcome with
            | Ok result =>
                match Wire.finish c result with
                | Ok v => Ok (IndexTs.text_content v)
                | Throw e => Throw e
                end
            | Throw e => Throw e
            end, snd outcome)
       end.
Proof.
  destruct c as [| | | | |userId| | | | |query userId];
    cbn [IndexTs.call_tool Wire.is_write Wire.is_upsert_list Wire.unescapable].
  6: {
    exists (IndexTs.get_lists_endpoint userId), "GET", None.
    split; [reflexivity|]. split; [reflexivity|].
    split; [apply (escaped_endpoint_cases "/lists" "/lists?userId="),
              get_lists_endpoint_cases|].
    unfold IndexTs.get_lists.
    destruct (IndexTs.get_lists_endpoint userId) as [endpoint|e];
      [|reflexivity].
    cbv zeta. cbn [Wire.finish]. apply run_text_content.
  }
  10: {
    exists (IndexTs.search_songs_endpoint userId), "GET", None.
    split; [reflexivity|]. split; [reflexivity|].
    split; [apply (escaped_endpoint_cases "/songs" "/songs?userId="),
              search_songs_endpoint_cases|].
    unfold IndexTs.search_songs.
    destruct (IndexTs.search_songs_endpoint userId) as [endpoint|e];
      [|reflexivity].
    change (run (endpoint0 ← await (Ok endpoint);
                 result0 ← IndexTs.apiRequest endpoint0 "GET" None false;
                 filtered ← await (IndexTs.search_filter query result0);
                 mret (IndexTs.text_content (JArr filtered))) backend)
      with (run (result0 ← IndexTs.apiRequest endpoint "GET" None false;
                 filtered ← await (IndexTs.search_filter query result0);
                 mret (IndexTs.text_content (JArr filtered))) backend).
    cbv zeta. rewrite run_bind.
    destruct (run (IndexTs.apiRequest _ _ _ _) backend) as [[result|e'] log];
      cbn [fst snd Wire.finish]; [|reflexivity].
    unfold mbind, Async_bind, await, mret, Async_ret.
    now destruct (IndexTs.search_filter query result).
  }
  all: eexists (Ok _); do 2 eexists;
    (split; [reflexivity|]);
    (split; [first [reflexivity | eexists; reflexivity]|]);
    (split; [eexists; reflexivity|]);
    cbv zeta; cbn [Wire.finish];
    unfold IndexTs.get_songs, IndexTs.get_song, IndexTs.get_songs_by_user,
      IndexTs.get_songs_in_list, IndexTs.upsert_song,
      IndexTs.get_list, IndexTs.upsert_list, IndexTs.get_artists,
      IndexTs.upsert_artist;
    cbv zeta; apply run_text_content.
Qed.

Lemma request_options_no_body (rt : Runtime) method requiresAuth :
  body (IndexTs.request_options method None requiresAuth) = None.
Proof. unfold IndexTs.request_options. now destruct (requiresAuth && _). Qed.

(** X1. Every tool issues at most one request. When the [userId] of
    [get_lists] or [search_songs] holds a lone surrogate, the escaping
    throws a [URIError] and no request is issued. In every other case,
    whatever the backend does, exactly one request is issued, to a URL
    under the base (the [BANDMATE_API_URL] of the environment when it is
    set and not empty, the public backend otherwise): a GET without a body
    for the tools that read, a POST with a body for the three that write.
    Only [upsert_list] can carry an [Authorization] header, and it does
    exactly when a token is configured. *)
Theorem X1_one_request_per_tool (rt : Runtime) c backend :
  let base :=
    match env_BANDMATE_API_URL with
    | Some (String first rest) => String first rest
    | _ => "https://vertigox.ue.r.appspot.com/api"
    end in
  (Wire.unescapable c = true ->
     exists msg, run (IndexTs.call_tool c) backend = (Throw (URIError msg), []))
  /\ (Wire.unescapable c = false ->
      exists call endpoint,
        snd (run (IndexTs.call_tool c) backend) = [call]
        /\ url call = base +:+ endpoint
        /\ method (options call) = (if Wire.is_write c then "POST" else "GET")
        /\ (is_Some (body (options call)) <-> Wire.is_write c = true)
        /\ obj_get (headers (options call)) "Authorization" =
             if Wire.is_upsert_list c && truthy_string IndexTs.AUTH_TOKEN
             then Some ("Bearer " +:+ IndexTs.AUTH_TOKEN) else None).
Proof.
  intros base.
  assert (IndexTs.API_BASE_URL = base) as Hbase.
  { subst base. unfold IndexTs.API_BASE_URL, env_or.
    now destruct env_BANDMATE_API_URL as [[|c' url]|]. }
  destruct (call_tool_run rt c backend)
    as [endpoint [method [payload [Hmethod [Hpayload [Hescape Hrun]]]]]].
  rewrite Hrun. split; intros Hc; rewrite Hc in Hescape.
  - destruct Hescape as [msg ->]. now exists msg.
  - destruct Hescape as [e ->]. cbv zeta. rewrite run_apiRequest. cbn [snd].
    eexists. exists e. split; [reflexivity|]. cbn [url options].
    rewrite request_options_method, request_options_headers, Hbase.
    split; [reflexivity|]. split; [assumption|]. split.
    + subst method. destruct (Wire.is_write c).
      * destruct Hpayload as [fields ->].
        rewrite request_options_post_object. split; [reflexivity | eauto].
      * subst payload. rewrite request_options_no_body.
        split; [intros [x Hx]; discriminate | discriminate].
    + now destruct (Wire.is_upsert_list c && _).
Qed.

Lemma X1_one_request_per_tool_witness :
  (exists msg,
     run (IndexTs.call_tool (rt := Example.authenticated)
            (call_get_lists (Some ("u" +:+ Example.lone_surrogate))))
       (Example.responds Example.not_found)
     = (Throw (URIError msg), []))
  /\ exists call,
       snd (run (IndexTs.call_tool (rt := Example.authenticated)
                   (call_upsert_list None (Some "Set list") false (Some []) None))
              (Example.responds Example.not_found)) = [call]
       /\ url call = "http://localhost:3000/api/lists"
       /\ is_Some (body (options call))
       /\ obj_get (headers (options call)) "Authorization" = Some "Bearer s3cret".
Proof.
  split.
  - apply (X1_one_request_per_tool Example.authenticated
             (call_get_lists (Some ("u" +:+ Example.lone_surrogate)))).
    reflexivity.
  - destruct (X1_one_request_per_tool Example.authenticated
                (call_upsert_list None (Some "Set list") false (Some []) None)
                (Example.responds Example.not_found))
      as [_ Hone].
    destruct (Hone eq_refl)
      as [call [endpoint [Hlog [Hurl [_ [Hbody Hauth]]]]]].
    exists call. split; [exact Hlog|].
    assert (endpoint = "/lists") as ->.
    { unfold IndexTs.call_tool, IndexTs.upsert_list in Hlog.
      rewrite run_text_content, run_apiRequest in Hlog.
      cbn [snd] in Hlog. injection Hlog as <-.
      cbn [url] in Hurl. now apply String.app_inj in Hurl. }
    split; [exact Hurl|]. split.
    + apply Hbody. reflexivity.
    + rewrite Hauth. reflexivity.
Defined.

(** X2. No tool catches or rewrites a failure of its request. Whenever a
    tool issued its request: if [fetch] rejects, the tool rejects with the
    same exception; if the backend answers outside 200..299, the tool
    rejects with the error built from the status and the text; if the body
    of a 2xx answer does not parse, the tool rejects with the parser's
    exception. In each case no result is produced. *)
Theorem X2_failures_propagate (rt : Runtime) c backend call :
  snd (run (IndexTs.call_tool c) backend) = [call] ->
  (forall e, backend call = Throw e ->
     fst (run (IndexTs.call_tool c) backend) = Throw e)
  /\ (forall r, backend call = Ok r -> Response.ok r = false ->
        fst (run (IndexTs.call_tool c) backend)
        = Throw (Error ("API request failed: " +:+ pretty (Response.status r)
                        +:+ " - " +:+ Response.text r)))
  /\ (forall r e, backend call = Ok r -> Response.ok r = true ->
        Response.json r = Throw e ->
        fst (run (IndexTs.call_tool c) backend) = Throw e).
Proof.
  destruct (call_tool_run rt c backend)
    as [endpoint [method [payload [_ [_ [_ Hrun]]]]]].
  rewrite Hrun. destruct endpoint as [endpoint|e0]; [|discriminate].
  cbv zeta. rewrite run_apiRequest.
  cbv zeta. cbn [fst snd]. intros [= <-].
  split; [|split].
  - intros e ->. reflexivity.
  - intros r -> ->. reflexivity.
  - intros r e -> -> ->. reflexivity.
Qed.

Lemma X2_failures_propagate_witness :
  fst (run (IndexTs.call_tool (rt := Example.authenticated)
              (call_upsert_list None (Some "Set list") true None None))
         (Example.responds Example.not_found))
  = Throw (Error "API request failed: 404 - song not found").
Proof.
  destruct (X2_failures_propagate Example.authenticated
              (call_upsert_list None (Some "Set list") true None None)
              (Example.responds Example.not_found)
              {| url := "http://localhost:3000/api/lists";
                 options :=
                   {| method := "POST";
                      headers := [("Content-Type", "application/json");
                                  ("Authorization", "Bearer s3cret")];
                      body := Some "<json>" |} |} eq_refl)
    as [_ [Hstatus _]].
  exact (Hstatus Example.not_found eq_refl eq_refl).
Defined.

(** X3. Whenever a tool other than the search issued its request and got a
    2xx answer whose body parses, it returns one text block holding
    [JSON.stringify(body, null, 2)] of the parsed body, whatever that body
    is. *)
Theorem X3_success_is_verbatim (rt : Runtime) c backend call :
  Wire.is_search c = false ->
  snd (run (IndexTs.call_tool c) backend) = [call] ->
  forall r v, backend call = Ok r -> Response.ok r = true ->
    Response.json r = Ok v ->
    fst (run (IndexTs.call_tool c) backend)
    = Ok {| content := [ {| type := "text"; text := JSON_stringify v 2 |} ] |}.
Proof.
  intros Hsearch.
  destruct (call_tool_run rt c backend)
    as [endpoint [method [payload [_ [_ [_ Hrun]]]]]].
  rewrite Hrun. destruct endpoint as [endpoint|e0]; [|discriminate].
  cbv zeta. rewrite run_apiRequest.
  cbv zeta. cbn [fst snd]. intros [= <-].
  intros r v -> -> ->. destruct c; try discriminate; reflexivity.
Qed.

Lemma X3_success_is_verbatim_witness :
  fst (run (IndexTs.call_tool (rt := Example.anonymous) (call_get_song "42"))
         (Example.responds (Example.found Example.foobar)))
  = Ok {| content := [ {| type := "text"; text := "<json>" |} ] |}.
Proof.
  exact (X3_success_is_verbatim Example.anonymous (call_get_song "42")
           (Example.responds (Example.found Example.foobar))
           {| url := "https://vertigox.ue.r.appspot.com/api/songs/42";
              options := {| method := "GET";
                            headers := [("Content-Type", "application/json")];
                            body := None |} |}
           eq_refl eq_refl
           (Example.found Example.foobar) Example.foobar
           eq_refl eq_refl eq_refl).
Defined.

(** *** Bodies *)

(** X4. [apiRequest] sends a body only when one is passed, it is truthy,
    and the method is exactly [POST], [PUT] or [PATCH]; the body sent is
    then its serialization. A body passed with any other method (or with a
    method in another case), and a falsy body ([null], [false], [0], [""])
    with any method, are dropped silently. *)
Theorem X4_body_rule (rt : Runtime) method payload requiresAuth :
  (is_Some (body (IndexTs.request_options method payload requiresAuth))
   <-> (exists v, payload = Some v /\ truthy v = true)
       /\ (method = "POST" \/ method = "PUT" \/ method = "PATCH"))
  /\ (forall v, payload = Some v ->
        is_Some (body (IndexTs.request_options method payload requiresAuth)) ->
        body (IndexTs.request_options method payload requiresAuth)
        = Some (JSON_stringify v 0)).
Proof.
  unfold IndexTs.request_options.
  destruct payload as [v|].
  - destruct (truthy v) eqn:Htruthy; cbn [andb].
    + destruct (String.eqb_spec method "POST") as [->|Hpost].
      { split.
        - split; [intros _; split; [eauto | auto] | eauto].
        - now intros v' [= ->] _. }
      destruct (String.eqb_spec method "PUT") as [->|Hput].
      { split.
        - split; [intros _; split; [eauto | auto] | eauto].
        - now intros v' [= ->] _. }
      destruct (String.eqb_spec method "PATCH") as [->|Hpatch].
      { split.
        - split; [intros _; split; [eauto | auto] | eauto].
        - now intros v' [= ->] _. }
      cbn [orb body]. split.
      * split; [intros [x Hx]; discriminate|].
        intros [_ [H | [H | H]]]; contradiction.
      * intros v' _ [x Hx]. discriminate.
    + cbn [body]. split.
      * split; [intros [x Hx]; discriminate|].
        intros [[v' [[= <-] Hv']] _]. congruence.
      * intros v' _ [x Hx]. discriminate.
  - cbn [body]. split.
    + split; [intros [x Hx]; discriminate|].
      intros [[v' [Hv' _]] _]. discriminate.
    + intros v' Hv'. discriminate.
Qed.

Lemma X4_body_rule_witness :
  body (IndexTs.request_options (rt := Example.anonymous) "PATCH"
          (Some (JObj [])) false) = Some "<json>".
Proof.
  destruct (X4_body_rule Example.anonymous "PATCH" (Some (JObj [])) false)
    as [[_ Hpresent] Hbody].
  apply (Hbody (JObj []) eq_refl). apply Hpresent.
  split; [now exists (JObj []) | auto].
Defined.

Lemma keys_app {V} (a b : list (string * V)) :
  Wire.keys (a ++ b) = Wire.keys a ++ Wire.keys b.
Proof. apply map_app. Qed.

Lemma keys_provided_sublist {A} (t : A -> bool) f k (v : option A) :
  sublist (Wire.keys (Spec.provided t f k v)) [k].
Proof.
  rewrite provided_supplied. destruct (Spec.drop_falsy t v); cbn.
  - apply sublist_skip, sublist_nil.
  - apply sublist_cons, sublist_nil.
Qed.

(** X5. The object [upsert_song] sends always starts with [title],
    [chords-text], [public], [details] and [tags], in that order; [tags]
    is always an array, empty when the parameter was omitted. Its keys are
    the wire keys of a song, each at most once and in the order of the
    wire shape. *)
Theorem X5_song_keys id title chordsText isPublic bpm key voice tags
    spotifyUrl youtubeUrl userId :
  let songData := IndexTs.songData id title chordsText isPublic bpm key voice
                    tags spotifyUrl youtubeUrl userId in
  (exists optional,
     Wire.keys songData
     = ["title"; "chords-text"; "public"; "details"; "tags"] ++ optional)
  /\ sublist (Wire.keys songData) Wire.song_keys
  /\ NoDup (Wire.keys songData)
  /\ obj_get songData "title" = Some (JStr title)
  /\ obj_get songData "tags" = Some (JArr (map JStr (default [] tags))).
Proof.
  intros songData. subst songData. rewrite songData_shape.
  assert (sublist
            (Wire.keys
               ([("title", JStr title); ("chords-text", JStr chordsText);
                 ("public", JBool isPublic);
                 ("details",
                  JObj (Spec.provided truthy_number JNum "bpm" bpm
                        ++ Spec.provided truthy_string JStr "key" key
                        ++ Spec.provided truthy_string JStr "voice" voice));
                 ("tags", JArr (map JStr (default [] tags)))]
                ++ Spec.provided truthy_string JStr "id" id
                ++ Spec.provided truthy_string JStr "spotifyUrl" spotifyUrl
                ++ Spec.provided truthy_string JStr "youtubeUrl" youtubeUrl
                ++ Spec.provided truthy_string JStr "user_id" userId))
            Wire.song_keys) as Hsub.
  { rewrite !keys_app.
    change Wire.song_keys
      with (["title"; "chords-text"; "public"; "details"; "tags"]
            ++ ["id"] ++ ["spotifyUrl"] ++ ["youtubeUrl"] ++ ["user_id"]).
    repeat apply sublist_app; try apply keys_provided_sublist.
    reflexivity. }
  split; [|split; [|split; [|split]]].
  - rewrite keys_app. cbn [Wire.keys map fst]. eexists. reflexivity.
  - exact Hsub.
  - eapply sublist_NoDup; [|exact Hsub]. compute_done.
  - reflexivity.
  - reflexivity.
Qed.

(** X6. The object [upsert_list] sends always starts with [private]. A
    supplied [songs] array is sent as it is, also when it is empty (an
    empty array is not falsy), and is absent only when the parameter was
    omitted. The keys are the wire keys of a list, each at most once and
    in the order of the wire shape. *)
Theorem X6_list_keys id name isPrivate songs userId :
  let listData := IndexTs.listData id name isPrivate songs userId in
  (exists optional, listData = ("private", JBool isPrivate) :: optional)
  /\ obj_get listData "songs" = (fun s => JArr (map JStr s)) <$> songs
  /\ sublist (Wire.keys listData) Wire.list_keys
  /\ NoDup (Wire.keys listData).
Proof.
  intros listData. subst listData. rewrite listData_shape.
  assert (sublist
            (Wire.keys
               ([("private", JBool isPrivate)]
                ++ Spec.provided truthy_string JStr "id" id
                ++ Spec.provided truthy_string JStr "name" name
                ++ Spec.provided truthy_array
                     (fun s => JArr (map JStr s)) "songs" songs
                ++ Spec.provided truthy_string JStr "user_uid" userId))
            Wire.list_keys) as Hsub.
  { rewrite !keys_app.
    change Wire.list_keys
      with (["private"] ++ ["id"] ++ ["name"] ++ ["songs"] ++ ["user_uid"]).
    repeat apply sublist_app; try apply keys_provided_sublist.
    reflexivity. }
  split; [|split; [|split]].
  - cbn [app]. eexists. reflexivity.
  - cbn [app obj_get String.eqb Ascii.eqb Bool.eqb].
    rewrite !obj_get_app, !obj_get_provided.
    cbn [String.eqb Ascii.eqb Bool.eqb].
    now destruct songs.
  - exact Hsub.
  - eapply sublist_NoDup; [|exact Hsub]. compute_done.
Qed.

(** X7. [upsert_artist] posts [{ name }] to [/artists] with the name as it
    was given: it is neither trimmed nor lowercased, and an empty name is
    sent as an empty name (there is no truthiness guard here). No
    [Authorization] header is sent. *)
Theorem X7_upsert_artist_verbatim (rt : Runtime) name backend :
  snd (run (IndexTs.upsert_artist name) backend)
  = [ {| url := IndexTs.API_BASE_URL +:+ "/artists";
         options :=
           {| method := "POST";
              headers := [("Content-Type", "application/json")];
              body := Some (JSON_stringify (JObj [("name", JStr name)]) 0) |} |} ].
Proof.
  unfold IndexTs.upsert_artist.
  rewrite run_text_content, run_apiRequest. reflexivity.
Qed.

(** *** Paths *)

Lemma query_params_path path query :
  char_in "?" path = false ->
  Spec.query_params (path +:+ "?" +:+ query) = Spec.query_params ("?" +:+ query).
Proof.
  intros Hpath. unfold Spec.query_params.
  change (path +:+ "?" +:+ query) with (path +:+ String "?" query).
  rewrite break_at_first by assumption. reflexivity.
Qed.

(** X8. The tools that take an identifier put it into the path as it is,
    without escaping: the URL is the base, the fixed prefix and the
    identifier, byte for byte. An identifier that holds a [?] therefore
    turns its tail into the query string of the request. *)
Theorem X8_identifiers_are_not_escaped (rt : Runtime) backend :
  (forall id, exists call,
      snd (run (IndexTs.get_song id) backend) = [call]
      /\ url call = IndexTs.API_BASE_URL +:+ "/songs/" +:+ id)
  /\ (forall userId, exists call,
        snd (run (IndexTs.get_songs_by_user userId) backend) = [call]
        /\ url call = IndexTs.API_BASE_URL +:+ "/songs/user/" +:+ userId)
  /\ (forall listId, exists call,
        snd (run (IndexTs.get_songs_in_list listId) backend) = [call]
        /\ url call = IndexTs.API_BASE_URL +:+ "/songs/list/" +:+ listId)
  /\ (forall id, exists call,
        snd (run (IndexTs.get_list id) backend) = [call]
        /\ url call = IndexTs.API_BASE_URL +:+ "/lists/" +:+ id)
  /\ (forall id query,
        char_in "?" id = false ->
        Spec.query_params ("/songs/" +:+ (id +:+ "?" +:+ query))
        = Spec.query_params ("?" +:+ query)).
Proof.
  repeat split.
  - intros id. unfold IndexTs.get_song.
    rewrite run_text_content, run_apiRequest. eexists; split; reflexivity.
  - intros userId. unfold IndexTs.get_songs_by_user.
    rewrite run_text_content, run_apiRequest. eexists; split; reflexivity.
  - intros listId. unfold IndexTs.get_songs_in_list.
    rewrite run_text_content, run_apiRequest. eexists; split; reflexivity.
  - intros id. unfold IndexTs.get_list.
    rewrite run_text_content, run_apiRequest. eexists; split; reflexivity.
  - intros id query Hid. rewrite <- append_assoc.
    apply query_params_path.
    rewrite char_in_append, Hid. reflexivity.
Qed.

Lemma X8_identifiers_are_not_escaped_witness :
  Spec.query_params ("/songs/" +:+ ("42" +:+ "?" +:+ "userId=u1&ids=7"))
  = [("userId", "u1"); ("ids", "7")].
Proof.
  destruct (X8_identifiers_are_not_escaped Example.anonymous
              (Example.responds Example.not_found)) as [_ [_ [_ [_ Hquery]]]].
  rewrite (Hquery "42" "userId=u1&ids=7" eq_refl). reflexivity.
Defined.

(** *** Escaping *)

Lemma percent_decode_component_char c rest :
  Wire.percent_decode false
    ((if is_alnum c || char_in c "-_.!~*'()"
      then String c EmptyString else percent_encode c) +:+ rest)
  = String c (Wire.percent_decode false rest).
Proof. destruct c as [[] [] [] [] [] [] [] []]; reflexivity. Qed.

Lemma percent_decode_form_char c rest :
  Wire.percent_decode true
    ((if Ascii.eqb c " " then "+"
      else if is_alnum c || char_in c "*-._"
      then String c EmptyString else percent_encode c) +:+ rest)
  = String c (Wire.percent_decode true rest).
Proof. destruct c as [[] [] [] [] [] [] [] []]; reflexivity. Qed.

Lemma percent_decode_escape_component s rest :
  Wire.percent_decode false (escape_component s +:+ rest)
  = s +:+ Wire.percent_decode false rest.
Proof.
  unfold escape_component. induction s as [|c s IH]; [reflexivity|].
  cbn [string_flat_map]. rewrite append_assoc, percent_decode_component_char.
  now rewrite IH.
Qed.

Lemma percent_decode_form_bytes s rest :
  Wire.percent_decode true
    (string_flat_map
       (fun c => if Ascii.eqb c " " then "+"
                 else if is_alnum c || char_in c "*-._"
                 then String c EmptyString else percent_encode c) s +:+ rest)
  = s +:+ Wire.percent_decode true rest.
Proof.
  induction s as [|c s IH]; [reflexivity|].
  cbn [string_flat_map]. rewrite append_assoc, percent_decode_form_char.
  now rewrite IH.
Qed.

Lemma percent_decode_form_urlencode s :
  Wire.percent_decode true (form_urlencode s) = to_usv s.
Proof.
  unfold form_urlencode.
  rewrite <- (append_nil_r (string_flat_map _ _)).
  rewrite percent_decode_form_bytes. apply append_nil_r.
Qed.

Lemma to_usv_well_formed s : has_lone_surrogate s = false -> to_usv s = s.
Proof.
  induction s as [|c rest IH]; [reflexivity|].
  cbn [has_lone_surrogate to_usv].
  intros [Hstart Hrest]%orb_false_iff. specialize (IH Hrest).
  destruct rest as [|d [|e rest']].
  - reflexivity.
  - now rewrite IH.
  - rewrite Hstart. now rewrite IH.
Qed.

Lemma escape_component_delimiters s :
  char_in "&" (escape_component s) = false
  /\ char_in "=" (escape_component s) = false
  /\ char_in "?" (escape_component s) = false
  /\ char_in "#" (escape_component s) = false
  /\ char_in "/" (escape_component s) = false
  /\ char_in " " (escape_component s) = false.
Proof.
  unfold escape_component.
  repeat split; apply char_in_flat_map;
    intros [[] [] [] [] [] [] [] []]; vm_compute; reflexivity.
Qed.

Lemma encodeURIComponent_Ok s e :
  encodeURIComponent s = Ok e ->
  has_lone_surrogate s = false /\ e = escape_component s.
Proof.
  unfold encodeURIComponent. destruct (has_lone_surrogate s); [discriminate|].
  now intros [= <-].
Qed.

Lemma query_params_one path name value :
  char_in "?" path = false ->
  char_in "&" name = false -> char_in "=" name = false ->
  char_in "&" value = false ->
  Spec.query_params (path +:+ "?" +:+ name +:+ "=" +:+ value) = [(name, value)].
Proof.
  intros Hpath Hamp Heq Hvalue. rewrite query_params_path by assumption.
  unfold Spec.query_params.
  change ("?" +:+ name +:+ "=" +:+ value)
    with (String "?" (name +:+ String "=" value)).
  cbn [Spec.break_at Ascii.eqb Bool.eqb snd].
  rewrite split_on_absent.
  - cbn [map]. now rewrite break_at_first.
  - rewrite char_in_append. cbn [char_in]. now rewrite Hamp, Hvalue.
Qed.

(** X9. [get_lists] and [search_songs] escape the user filter with
    [encodeURIComponent], which throws a [URIError] exactly on a string
    that holds a lone surrogate; the tool then rejects with it and issues
    no request. On every other non-empty [userId] the escaped value holds
    none of [&], [=], [?], [#], [/] or a space, so the query string of the
    request has the single parameter [userId]; and the escaping loses
    nothing: decoding gives the identifier back, so two different
    identifiers never give the same URL. An omitted or empty filter leaves
    the path bare. *)
Theorem X9_user_filter_is_escaped (rt : Runtime) backend :
  (forall s, encodeURIComponent s =
             if has_lone_surrogate s then Throw (URIError "URI malformed")
             else Ok (escape_component s))
  /\ (forall s escaped, encodeURIComponent s = Ok escaped ->
        Wire.percent_decode false escaped = s
        /\ char_in "&" escaped = false /\ char_in "=" escaped = false
        /\ char_in "?" escaped = false /\ char_in "#" escaped = false
        /\ char_in "/" escaped = false /\ char_in " " escaped = false)
  /\ (forall a b escaped,
        encodeURIComponent a = Ok escaped ->
        encodeURIComponent b = Ok escaped -> a = b)
  /\ (forall userId, truthy_string userId = true ->
        has_lone_surrogate userId = false ->
        exists escaped,
          encodeURIComponent userId = Ok escaped
          /\ (exists call,
                snd (run (IndexTs.get_lists (Some userId)) backend) = [call]
                /\ url call = IndexTs.API_BASE_URL +:+ "/lists?userId="
                              +:+ escaped)
          /\ IndexTs.search_songs_endpoint (Some userId)
             = Ok ("/songs?userId=" +:+ escaped)
          /\ Spec.query_params ("/lists?userId=" +:+ escaped)
             = [("userId", escaped)]
          /\ Spec.query_params ("/songs?userId=" +:+ escaped)
             = [("userId", escaped)])
  /\ (forall userId query, has_lone_surrogate userId = true ->
        exists msg,
          run (IndexTs.get_lists (Some userId)) backend
          = (Throw (URIError msg), [])
          /\ run (IndexTs.search_songs query (Some userId)) backend
             = (Throw (URIError msg), []))
  /\ (forall userId, Spec.drop_falsy truthy_string userId = None ->
        (exists call,
           snd (run (IndexTs.get_lists userId) backend) = [call]
           /\ url call = IndexTs.API_BASE_URL +:+ "/lists")
        /\ IndexTs.search_songs_endpoint userId = Ok "/songs").
Proof.
  assert (forall s, Wire.percent_decode false (escape_component s) = s)
    as Hdecode.
  { intros s. rewrite <- (append_nil_r (escape_component s)).
    rewrite percent_decode_escape_component. apply append_nil_r. }
  split; [reflexivity|]. split.
  { intros s escaped [_ ->]%encodeURIComponent_Ok.
    split; [apply Hdecode | apply escape_component_delimiters]. }
  split.
  { intros a b escaped [_ Ha]%encodeURIComponent_Ok [_ Hb]%encodeURIComponent_Ok.
    rewrite <- (Hdecode a), <- (Hdecode b). congruence. }
  split; [|split].
  - intros userId Htruthy Hwell.
    destruct (escape_component_delimiters userId) as [Hamp _].
    assert (Spec.drop_falsy truthy_string (Some userId) = Some userId) as Hkept.
    { unfold Spec.drop_falsy, when_truthy. now rewrite Htruthy. }
    exists (escape_component userId).
    split; [unfold encodeURIComponent; now rewrite Hwell|].
    split; [|split; [|split]].
    + unfold IndexTs.get_lists.
      rewrite get_lists_endpoint_cases, Hkept, Hwell.
      change (run (endpoint ← await (Ok ("/lists?userId="
                                         +:+ escape_component userId));
                   result ← IndexTs.apiRequest endpoint "GET" None false;
                   mret (IndexTs.text_content result)) backend)
        with (run (result ← IndexTs.apiRequest
                              ("/lists?userId=" +:+ escape_component userId)
                              "GET" None false;
                   mret (IndexTs.text_content result)) backend).
      rewrite run_text_content, run_apiRequest. eexists; split; reflexivity.
    + now rewrite search_songs_endpoint_cases, Hkept, Hwell.
    + now apply (query_params_one "/lists" "userId").
    + now apply (query_params_one "/songs" "userId").
  - intros userId query Hlone.
    assert (Spec.drop_falsy truthy_string (Some userId) = Some userId) as Hkept.
    { destruct userId; [discriminate | reflexivity]. }
    exists "URI malformed". split.
    + unfold IndexTs.get_lists.
      now rewrite get_lists_endpoint_cases, Hkept, Hlone.
    + unfold IndexTs.search_songs.
      now rewrite search_songs_endpoint_cases, Hkept, Hlone.
  - intros userId Habsent. split.
    + unfold IndexTs.get_lists. rewrite get_lists_endpoint_cases, Habsent.
      change (run (endpoint ← await (Ok "/lists");
                   result ← IndexTs.apiRequest endpoint "GET" None false;
                   mret (IndexTs.text_content result)) backend)
        with (run (result ← IndexTs.apiRequest "/lists" "GET" None false;
                   mret (IndexTs.text_content result)) backend).
      rewrite run_text_content, run_apiRequest.
      eexists; split; reflexivity.
    + now rewrite search_songs_endpoint_cases, Habsent.
Qed.

Lemma X9_user_filter_is_escaped_witness :
  Spec.query_params ("/lists?userId=" +:+ "a%26b%3Dc%20d")
  = [("userId", "a%26b%3Dc%20d")]
  /\ exists msg,
       run (IndexTs.get_lists (rt := Example.anonymous)
              (Some (Example.lone_surrogate +:+ "x")))
         (Example.responds Example.not_found)
       = (Throw (URIError msg), []).
Proof.
  destruct (X9_user_filter_is_escaped Example.anonymous
              (Example.responds Example.not_found))
    as [_ [_ [_ [Hsome [Hlone _]]]]].
  split.
  - destruct (Hsome "a&b=c d" eq_refl eq_refl)
      as [escaped [Hescaped [_ [_ [Hquery _]]]]].
    injection Hescaped as <-. exact Hquery.
  - destruct (Hlone (Example.lone_surrogate +:+ "x") "q" eq_refl)
      as [msg [Hlists _]].
    now exists msg.
Defined.

(** X10. The [ids] (or [userId]) filter of [get_songs] is form-encoded as a
    scalar value string: a space becomes [+], a lone surrogate becomes
    U+FFFD, and decoding the value gives the scalar value string back,
    which is the filter itself when it holds no lone surrogate. Two
    different non-empty [ids] filters without lone surrogates therefore
    never give the same endpoint, while two filters that differ in a lone
    surrogate do. *)
Theorem X10_ids_filter_round_trip userId userId' ids ids' :
  Wire.percent_decode true (form_urlencode ids) = to_usv ids
  /\ (has_lone_surrogate ids = false -> to_usv ids = ids)
  /\ (truthy_string ids = true -> truthy_string ids' = true ->
      has_lone_surrogate ids = false -> has_lone_surrogate ids' = false ->
      IndexTs.get_songs_endpoint userId (Some ids)
      = IndexTs.get_songs_endpoint userId' (Some ids') ->
      ids = ids')
  /\ Example.lone_surrogate <> Example.lone_surrogate'
  /\ IndexTs.get_songs_endpoint userId (Some Example.lone_surrogate)
     = "/songs?ids=%EF%BF%BD"
  /\ IndexTs.get_songs_endpoint userId' (Some Example.lone_surrogate')
     = "/songs?ids=%EF%BF%BD".
Proof.
  split; [apply percent_decode_form_urlencode|].
  split; [apply to_usv_well_formed|].
  split; [|split; [discriminate | split; reflexivity]].
  intros Hids Hids' Hwell Hwell' Hsame.
  rewrite (get_songs_endpoint_ids userId _ ids eq_refl Hids) in Hsame.
  rewrite (get_songs_endpoint_ids userId' _ ids' eq_refl Hids') in Hsame.
  apply String.app_inj in Hsame.
  rewrite <- (to_usv_well_formed ids Hwell), <- (to_usv_well_formed ids' Hwell').
  rewrite <- !percent_decode_form_urlencode. now rewrite Hsame.
Qed.

Lemma X10_ids_filter_round_trip_witness :
  Wire.percent_decode true (form_urlencode "a 1,b+2") = "a 1,b+2"
  /\ form_urlencode "a 1,b+2" = "a+1%2Cb%2B2"
  /\ "a 1,b+2" = "a 1,b+2".
Proof.
  destruct (X10_ids_filter_round_trip (Some "u1") None "a 1,b+2" "a 1,b+2")
    as [Hdecode [_ [Hinj _]]].
  split; [exact Hdecode|]. split; [reflexivity|].
  exact (Hinj eq_refl eq_refl eq_refl eq_refl eq_refl).
Defined.

(** *** More on searching *)

Lemma Array_filter_sublist {A} (f : A -> Result bool) l kept :
  Array_filter f l = Ok kept -> sublist kept l.
Proof.
  revert kept. induction l as [|x l IH]; intros kept; cbn [Array_filter].
  - intros [= <-]. constructor.
  - destruct (f x) as [keep|e]; [|discriminate].
    destruct (Array_filter f l) as [kept'|e]; [|discriminate].
    intros [= <-]. destruct keep.
    + apply sublist_skip. now apply IH.
    + apply sublist_cons. now apply IH.
Qed.

(** X11. Whatever the backend returned, when the search succeeds its
    result holds only entries of the fetched array ([result.body || result]),
    in their order: nothing is added, changed or moved. *)
Theorem X11_search_selects (rt : Runtime) query result filtered :
  IndexTs.search_filter query result = Ok filtered ->
  exists songs,
    IndexTs.songs_of result = Ok (JArr songs) /\ sublist filtered songs.
Proof.
  unfold IndexTs.search_filter.
  destruct (IndexTs.songs_of result) as [songs|e]; [|discriminate].
  cbn [mbind Result_bind].
  destruct songs as [| | | |songs|]; try discriminate.
  intros Hfilter. exists songs. split; [reflexivity|].
  now apply Array_filter_sublist in Hfilter.
Qed.

Lemma X11_search_selects_witness :
  exists songs,
    IndexTs.songs_of (JObj [("body", Example.collection)]) = Ok (JArr songs)
    /\ sublist [Example.baz] songs.
Proof.
  apply (X11_search_selects Example.anonymous "ROCK" (JObj [("body", Example.collection)])).
  reflexivity.
Defined.

Lemma substring_trans a b c :
  Spec.substring a b -> Spec.substring b c -> Spec.substring a c.
Proof.
  intros [pre [post ->]] [pre' [post' ->]].
  exists (pre' +:+ pre), (post +:+ post').
  now rewrite !append_assoc.
Qed.

Lemma matchesb_narrows {rt : Runtime} q q' song :
  Spec.substring (toLowerCase q) (toLowerCase q') ->
  Spec.matchesb q' song = true -> Spec.matchesb q song = true.
Proof.
  intros Hsub. rewrite !matchesb_spec. unfold Spec.matches.
  intros [[title [Htitle H]] | [tag [Hin H]]].
  - left. exists title. split; [assumption|]. eapply substring_trans; eauto.
  - right. exists tag. split; [assumption|]. eapply substring_trans; eauto.
Qed.

Lemma filter_filter_narrow {A} (g g' : A -> bool) l :
  (forall x, g' x = true -> g x = true) ->
  List.filter g' (List.filter g l) = List.filter g' l.
Proof.
  intros Himp. induction l as [|x l IH]; [reflexivity|].
  cbn [List.filter]. destruct (g x) eqn:Hg.
  - cbn [List.filter]. now rewrite IH.
  - destruct (g' x) eqn:Hg'; [|assumption].
    apply Himp in Hg'. congruence.
Qed.

Lemma filter_typed (g : Json -> bool) songs :
  forallb Spec.is_song songs = true ->
  forallb Spec.is_song (List.filter g songs) = true.
Proof.
  rewrite !forallb_forall. intros Htyped song [Hin _]%filter_In. auto.
Qed.

(** X12. A longer query narrows the search. Over a typed collection, when
    the lowercased query [q] occurs in the lowercased query [q'], every
    song found for [q'] is found for [q], and searching [q'] among the
    songs found for [q] gives what searching [q'] in the whole collection
    gives. *)
Theorem X12_longer_query_narrows (rt : Runtime) q q' songs :
  forallb Spec.is_song songs = true ->
  Spec.substring (toLowerCase q) (toLowerCase q') ->
  exists found found',
    IndexTs.search_filter q (JArr songs) = Ok found
    /\ IndexTs.search_filter q' (JArr songs) = Ok found'
    /\ sublist found' found
    /\ IndexTs.search_filter q' (JArr found) = Ok found'.
Proof.
  intros Htyped Hsub.
  exists (List.filter (Spec.matchesb q) songs),
         (List.filter (Spec.matchesb q') songs).
  split; [now apply search_filter_typed|].
  split; [now apply search_filter_typed|].
  assert (List.filter (Spec.matchesb q') (List.filter (Spec.matchesb q) songs)
          = List.filter (Spec.matchesb q') songs) as Hnarrow
    by (apply filter_filter_narrow; intros song; now apply matchesb_narrows).
  split.
  - rewrite <- Hnarrow.
    eapply Array_filter_sublist, (Array_filter_total (fun x => Ok _)).
    apply Forall_forall. reflexivity.
  - rewrite (search_filter_typed q' (JArr (List.filter (Spec.matchesb q) songs))
               (List.filter (Spec.matchesb q) songs)).
    + now rewrite Hnarrow.
    + reflexivity.
    + now apply filter_typed.
Qed.

Lemma X12_longer_query_narrows_witness :
  exists found found',
    IndexTs.search_filter (rt := Example.anonymous) "o" Example.collection = Ok found
    /\ IndexTs.search_filter (rt := Example.anonymous) "Foo-R" Example.collection = Ok found'
    /\ sublist found' found
    /\ IndexTs.search_filter (rt := Example.anonymous) "Foo-R" (JArr found) = Ok found'.
Proof.
  apply (X12_longer_query_narrows Example.anonymous "o" "Foo-R"
           [Example.foobar; Example.baz; Example.qux]); [reflexivity|].
  now exists "f", "o-r".
Defined.

Lemma includes_empty s : includes s "" = true.
Proof. destruct s; reflexivity. Qed.

Lemma matchesb_empty_query {rt : Runtime} song :
  Spec.matchesb "" song = Wire.has_title_or_tag song.
Proof.
  unfold Spec.matchesb, Wire.has_title_or_tag.
  rewrite (toLowerCase_ascii "") by reflexivity.
  change (ascii_lower "") with "".
  destruct (Spec.title_of song) as [title|].
  - now rewrite includes_empty.
  - destruct (Spec.tags_of song) as [|tag tags]; [reflexivity|].
    cbn [existsb orb]. now rewrite includes_empty.
Qed.

(** X13. The empty query does not select everything: over a typed
    collection it returns the songs that have a title or at least one tag,
    and drops the songs that have neither. *)
Theorem X13_empty_query (rt : Runtime) songs :
  forallb Spec.is_song songs = true ->
  IndexTs.search_filter "" (JArr songs)
  = Ok (List.filter Wire.has_title_or_tag songs).
Proof.
  intros Htyped.
  rewrite (search_filter_typed "" (JArr songs) songs eq_refl Htyped).
  f_equal. apply filter_ext. intros song. apply matchesb_empty_query.
Qed.

Lemma X13_empty_query_witness :
  IndexTs.search_filter (rt := Example.anonymous) ""
    (JArr [Example.qux; JObj [("id", JStr "s9")];
           JObj [("tags", JArr [JStr "live"])]; JObj [("tags", JArr [])]])
  = Ok [Example.qux; JObj [("tags", JArr [JStr "live"])]].
Proof.
  rewrite (X13_empty_query Example.anonymous); reflexivity.
Defined.

Lemma lower_includes_throws {rt : Runtime} q v e :
  IndexTs.lower_includes q v = Throw e -> exists msg, e = TypeError msg.
Proof. destruct v; cbn; intros [= <-]; eauto. Qed.

Lemma Array_some_throws {rt : Runtime} q tags e :
  Array_some (IndexTs.lower_includes q) tags = Throw e ->
  exists msg, e = TypeError msg.
Proof.
  induction tags as [|tag tags IH]; cbn [Array_some]; [discriminate|].
  destruct (IndexTs.lower_includes q tag) as [[|]|e'] eqn:Htag.
  - discriminate.
  - assumption.
  - intros [= <-]. now apply lower_includes_throws in Htag.
Qed.

Lemma song_matches_throws {rt : Runtime} q song e :
  IndexTs.song_matches q song = Throw e -> exists msg, e = TypeError msg.
Proof.
  unfold IndexTs.song_matches, IndexTs.titleMatch, IndexTs.tagsMatch, prop.
  destruct song as [| | | | |fields]; cbn [mbind Result_bind];
    try discriminate; try (intros [= <-]; eauto; fail).
  destruct (obj_get fields "title") as [[| | |title| |]|];
    cbn [mbind Result_bind IndexTs.lower_includes];
    try (intros [= <-]; eauto; fail);
    destruct (obj_get fields "tags") as [[| | | |tags|]|];
    cbn [mbind Result_bind];
    try discriminate; try (intros [= <-]; eauto; fail);
    destruct (Array_some (IndexTs.lower_includes q) tags) as [b|e'] eqn:Htags;
    cbn [mbind Result_bind]; try discriminate;
    intros [= <-]; now apply Array_some_throws in Htags.
Qed.

Lemma song_matches_malformed {rt : Runtime} q song :
  Wire.malformed song = true ->
  exists msg, IndexTs.song_matches q song = Throw (TypeError msg).
Proof.
  unfold Wire.malformed, IndexTs.song_matches, IndexTs.titleMatch, prop.
  destruct song as [| | | | |fields]; try discriminate.
  - intros _. eexists. reflexivity.
  - destruct (obj_get fields "title") as [[| | |title| |]|];
      try discriminate; intros _; eexists; reflexivity.
Qed.

Lemma Array_filter_throws {rt : Runtime} q pre song post :
  (exists msg, IndexTs.song_matches q song = Throw (TypeError msg)) ->
  exists msg,
    Array_filter (IndexTs.song_matches q) (pre ++ song :: post)
    = Throw (TypeError msg).
Proof.
  intros [msg Hsong]. induction pre as [|x pre [msg' IH]]; cbn [app Array_filter].
  - rewrite Hsong. eauto.
  - destruct (IndexTs.song_matches q x) as [keep|e] eqn:Hx.
    + rewrite IH. eauto.
    + destruct (song_matches_throws q x e Hx) as [msg'' ->]. eauto.
Qed.

(** X14. One malformed entry fails the whole search. When the fetched
    array holds, anywhere, a [null] or an object whose [title] is neither
    absent, [null] nor a string, the search throws a [TypeError] and
    returns no partial result, whatever the other entries and the query
    are. *)
Theorem X14_malformed_entry_fails_search (rt : Runtime) query pre song post :
  Wire.malformed song = true ->
  exists msg,
    IndexTs.search_filter query (JArr (pre ++ song :: post))
    = Throw (TypeError msg).
Proof.
  intros Hbad. unfold IndexTs.search_filter.
  cbn [IndexTs.songs_of prop mbind Result_bind when_truthy].
  apply Array_filter_throws. now apply song_matches_malformed.
Qed.

Lemma X14_malformed_entry_fails_search_witness :
  exists msg,
    IndexTs.search_filter (rt := Example.anonymous) "foo"
      (JArr ([Example.foobar] ++ JObj [("title", JNum (S754_zero false))]
               :: [Example.baz]))
    = Throw (TypeError msg).
Proof.
  apply (X14_malformed_entry_fails_search Example.anonymous "foo" [Example.foobar]
           (JObj [("title", JNum (S754_zero false))]) [Example.baz]).
  reflexivity.
Defined.

(** X15. The search reads the collection from the [body] field of the
    response when that field is truthy, and from the response itself
    otherwise. A response that wraps the array in [{ body: [...] }] gives
    what the bare array gives; an object without a truthy [body] is not an
    array and makes the search throw; a response of [null] makes it throw
    on reading [body]. *)
Theorem X15_body_unwrapping (rt : Runtime) query fields :
  (forall songs, obj_get fields "body" = Some (JArr songs) ->
     IndexTs.search_filter query (JObj fields)
     = IndexTs.search_filter query (JArr songs))
  /\ (Spec.drop_falsy truthy (obj_get fields "body") = None ->
      exists msg,
        IndexTs.search_filter query (JObj fields) = Throw (TypeError msg))
  /\ (exists msg, IndexTs.search_filter query JNull = Throw (TypeError msg)).
Proof.
  unfold IndexTs.search_filter, IndexTs.songs_of, prop.
  cbn [mbind Result_bind]. split; [|split].
  - intros songs ->. reflexivity.
  - intros Hfalsy. rewrite when_truthy_drop_falsy, Hfalsy. eauto.
  - eauto.
Qed.

Lemma X15_body_unwrapping_witness :
  IndexTs.search_filter (rt := Example.anonymous) "baz" (JObj [("body", Example.collection)])
  = Ok [Example.baz]
  /\ exists msg,
       IndexTs.search_filter (rt := Example.anonymous) "baz" (JObj [("body", JNull)])
       = Throw (TypeError msg).
Proof.
  destruct (X15_body_unwrapping Example.anonymous "baz" [("body", Example.collection)])
    as [Hwrapped _].
  destruct (X15_body_unwrapping Example.anonymous "baz" [("body", JNull)]) as [_ [Hfalsy _]].
  split.
  - rewrite (Hwrapped [Example.foobar; Example.baz; Example.qux] eq_refl).
    reflexivity.
  - apply Hfalsy. reflexivity.
Defined.

(** *** More on the session table *)

Lemma mcp_known_session (req : IndexTs.Express.Request)
    (st : IndexTs.ServerState) sid transport :
  IndexTs.Express.headers req !! "mcp-session-id" = Some sid ->
  sid <> "" ->
  IndexTs.streamableTransports st !! sid = Some transport ->
  IndexTs.mcp req st = (st, IndexTs.HandleRequest transport).
Proof.
  intros Hsid Hne Hknown. unfold IndexTs.mcp, when_truthy.
  now rewrite Hsid, (truthy_string_nonempty sid Hne), Hknown.
Qed.

(** X16. A request that presents a registered (non-empty) session
    identifier is handed to the transport registered under it, whatever its
    method and body, and the state is left as it was. *)
Theorem X16_known_session_is_routed (req : IndexTs.Express.Request)
    (st : IndexTs.ServerState) sid transport :
  IndexTs.Express.headers req !! "mcp-session-id" = Some sid ->
  sid <> "" ->
  IndexTs.streamableTransports st !! sid = Some transport ->
  IndexTs.mcp req st = (st, IndexTs.HandleRequest transport).
Proof.
  intros Hsid Hne Hknown. unfold IndexTs.mcp, when_truthy. rewrite Hsid.
  destruct sid as [|c sid]; [contradiction|].
  cbn [truthy_string]. now rewrite Hknown.
Qed.

Lemma X16_known_session_is_routed_witness :
  IndexTs.mcp (Example.with_session "DELETE" Example.uuid1) Example.one_session
  = (Example.one_session, IndexTs.HandleRequest 0).
Proof.
  apply (X16_known_session_is_routed _ _ Example.uuid1);
    [reflexivity | discriminate | reflexivity].
Defined.

Lemma onclose_unfold st transport :
  IndexTs.onclose transport st =
  match IndexTs.transports st !! transport with
  | Some t =>
      match Spec.drop_falsy truthy_string (IndexTs.sessionId t) with
      | Some sessionId =>
          {| IndexTs.streamableTransports :=
               delete sessionId (IndexTs.streamableTransports st);
             IndexTs.transports := IndexTs.transports st;
             IndexTs.connected := IndexTs.connected st |}
      | None => st
      end
  | None => st
  end.
Proof.
  unfold IndexTs.onclose.
  destruct (IndexTs.transports st !! transport); [|reflexivity].
  apply when_truthy_drop_falsy.
Qed.

(** X17. A POST without a session identifier (or with an empty one)
    creates one transport, distinct from every earlier one, and passes it
    to [server.connect]; the request is handed to that transport once the
    connection is made. Whether or not [server.connect] resolves, the
    session table and the earlier transports are untouched, and the new
    transport has no session identifier yet, so that its closing before
    the handshake completes changes nothing. *)
Theorem X17_handshake_creates_a_transport (req : IndexTs.Express.Request)
    (st : IndexTs.ServerState) :
  Spec.drop_falsy truthy_string (IndexTs.Express.headers req !! "mcp-session-id")
    = None ->
  IndexTs.Express.method req = "POST" ->
  let fresh := length (IndexTs.transports st) in
  let st' := fst (IndexTs.mcp req st) in
  snd (IndexTs.mcp req st) = IndexTs.Connect fresh
  /\ IndexTs.transports st' !! fresh = Some {| IndexTs.sessionId := None |}
  /\ length (IndexTs.transports st') = S fresh
  /\ (forall t, t < fresh ->
        IndexTs.transports st' !! t = IndexTs.transports st !! t)
  /\ IndexTs.connected st' = IndexTs.connected st ++ [fresh]
  /\ IndexTs.streamableTransports st' = IndexTs.streamableTransports st
  /\ IndexTs.step st' (IndexTs.Closed fresh) = st'.
Proof.
  intros Habsent Hpost fresh st'. subst fresh st'.
  unfold IndexTs.mcp. rewrite when_truthy_drop_falsy, Habsent.
  assert (truthy_opt truthy_string
            (IndexTs.Express.headers req !! "mcp-session-id") = false) as ->.
  { unfold Spec.drop_falsy, when_truthy in Habsent. unfold truthy_opt.
    destruct (IndexTs.Express.headers req !! "mcp-session-id") as [s|];
      [|reflexivity].
    now destruct (truthy_string s). }
  rewrite Hpost. cbn [negb andb String.eqb Ascii.eqb Bool.eqb fst snd].
  cbn [IndexTs.transports IndexTs.connected IndexTs.streamableTransports].
  repeat split.
  - rewrite lookup_app_r by reflexivity. now rewrite Nat.sub_diag.
  - rewrite length_app. cbn [length]. lia.
  - intros t Ht. now rewrite lookup_app_l.
  - cbn [IndexTs.step]. unfold IndexTs.onclose.
    cbn [IndexTs.transports].
    rewrite lookup_app_r by reflexivity. now rewrite Nat.sub_diag.
Qed.

Lemma X17_handshake_creates_a_transport_witness :
  snd (IndexTs.mcp Example.handshake IndexTs.initial) = IndexTs.Connect 0
  /\ IndexTs.connected (fst (IndexTs.mcp Example.handshake IndexTs.initial))
     = [0].
Proof.
  destruct (X17_handshake_creates_a_transport Example.handshake IndexTs.initial
              eq_refl eq_refl) as [Houtcome [_ [_ [_ [Hconnected _]]]]].
  split; [exact Houtcome | exact Hconnected].
Defined.

Lemma step_keeps_session st ev transport uuid :
  (forall t', ev <> IndexTs.Initialized t' uuid) ->
  ev <> IndexTs.Closed transport ->
  IndexTs.streamableTransports st !! uuid = Some transport
  /\ (forall t' t, IndexTs.transports st !! t' = Some t ->
        IndexTs.sessionId t = Some uuid -> t' = transport) ->
  IndexTs.streamableTransports (IndexTs.step st ev) !! uuid = Some transport
  /\ (forall t' t, IndexTs.transports (IndexTs.step st ev) !! t' = Some t ->
        IndexTs.sessionId t = Some uuid -> t' = transport).
Proof.
  intros Hinit Hclose [Hentry Hholder].
  destruct ev as [req|t0 uuid0|t0]; cbn [IndexTs.step].
  - split; [now rewrite mcp_table|].
    unfold IndexTs.mcp.
    destruct (when_truthy _ _ _ _); [exact Hholder|].
    destruct (negb _ && _); [|exact Hholder].
    cbn [fst IndexTs.transports]. intros t' t Ht Hsid.
    apply lookup_app_Some in Ht as [Ht | [_ Ht]]; [now apply (Hholder t' t)|].
    apply list_lookup_singleton_Some in Ht as [_ <-]. discriminate.
  - destruct (IndexTs.transports st !! t0) as [old|] eqn:Hold;
      [|now split].
    cbn [IndexTs.onsessioninitialized IndexTs.streamableTransports
           IndexTs.transports].
    assert (uuid0 <> uuid) as Hne by (intros ->; now apply (Hinit t0)).
    split; [now rewrite lookup_insert_ne|].
    intros t' t Ht Hsid.
    destruct (decide (t' = t0)) as [->|Hother].
    + rewrite list_lookup_insert_eq in Ht by now apply lookup_lt_Some in Hold.
      injection Ht as <-. cbn in Hsid. congruence.
    + rewrite list_lookup_insert_ne in Ht by congruence.
      now apply (Hholder t' t).
  - rewrite onclose_unfold.
    destruct (IndexTs.transports st !! t0) as [closing|] eqn:Hclosing;
      [|now split].
    destruct (Spec.drop_falsy truthy_string (IndexTs.sessionId closing))
      as [sid|] eqn:Hsid; [|now split].
    cbn [IndexTs.streamableTransports IndexTs.transports].
    split; [|exact Hholder].
    rewrite lookup_delete_ne; [assumption|].
    intros ->. apply Hclose. f_equal.
    apply (Hholder t0 closing Hclosing).
    unfold Spec.drop_falsy, when_truthy in Hsid.
    destruct (IndexTs.sessionId closing) as [sid|]; [|discriminate].
    destruct (truthy_string sid); [congruence | discriminate].
Qed.

Lemma steps_keep_session st evs transport uuid :
  (forall t', ~ In (IndexTs.Initialized t' uuid) evs) ->
  ~ In (IndexTs.Closed transport) evs ->
  IndexTs.streamableTransports st !! uuid = Some transport
  /\ (forall t' t, IndexTs.transports st !! t' = Some t ->
        IndexTs.sessionId t = Some uuid -> t' = transport) ->
  IndexTs.streamableTransports (IndexTs.steps st evs) !! uuid = Some transport.
Proof.
  revert st. induction evs as [|ev evs IH]; intros st Hinit Hclose Hinv.
  - apply Hinv.
  - cbn [IndexTs.steps fold_left]. apply IH.
    + intros t' Hin. apply (Hinit t'). now right.
    + intros Hin. apply Hclose. now right.
    + apply step_keeps_session; [| |assumption].
      * intros t' ->. apply (Hinit t'). now left.
      * intros ->. apply Hclose. now left.
Qed.

(** X18. A session stays reachable until its own transport closes. Once
    the handshake of a transport was signalled under a non-empty
    identifier that no other transport holds, and whatever happens next to
    the server (requests of any kind, handshakes and closures of other
    sessions, in any order), as long as the closure of that transport is
    not signalled and the identifier is not registered again, a request
    presenting the identifier is handed to that transport and leaves the
    state as it is. *)
Theorem X18_session_stays_reachable st transport uuid evs req :
  is_Some (IndexTs.transports st !! transport) ->
  uuid <> "" ->
  (forall t' t, IndexTs.transports st !! t' = Some t ->
     IndexTs.sessionId t = Some uuid -> t' = transport) ->
  (forall t', ~ In (IndexTs.Initialized t' uuid) evs) ->
  ~ In (IndexTs.Closed transport) evs ->
  IndexTs.Express.headers req !! "mcp-session-id" = Some uuid ->
  let st' := IndexTs.steps (IndexTs.step st (IndexTs.Initialized transport uuid))
               evs in
  IndexTs.streamableTransports st' !! uuid = Some transport
  /\ IndexTs.mcp req st' = (st', IndexTs.HandleRequest transport).
Proof.
  intros [old Hold] Hne Hholder Hinit Hclose Hreq st'.
  assert (IndexTs.streamableTransports st' !! uuid = Some transport) as Hentry.
  { subst st'. apply steps_keep_session; try assumption.
    cbn [IndexTs.step]. rewrite Hold.
    cbn [IndexTs.onsessioninitialized IndexTs.streamableTransports
           IndexTs.transports].
    split; [apply lookup_insert_eq|].
    intros t' t Ht Hsid.
    destruct (decide (t' = transport)) as [->|Hother]; [reflexivity|].
    rewrite list_lookup_insert_ne in Ht by congruence.
    now apply (Hholder t' t). }
  split; [exact Hentry|].
  now apply (mcp_known_session req st' uuid).
Qed.

Lemma X18_session_stays_reachable_witness :
  IndexTs.mcp (Example.with_session "GET" Example.uuid1)
    (IndexTs.steps
       (IndexTs.step (fst (IndexTs.mcp Example.handshake IndexTs.initial))
          (IndexTs.Initialized 0 Example.uuid1))
       [IndexTs.Inbound Example.handshake;
        IndexTs.Initialized 1 Example.uuid2;
        IndexTs.Inbound (Example.with_session "DELETE" Example.uuid2);
        IndexTs.Closed 1])
  = (IndexTs.steps
       (IndexTs.step (fst (IndexTs.mcp Example.handshake IndexTs.initial))
          (IndexTs.Initialized 0 Example.uuid1))
       [IndexTs.Inbound Example.handshake;
        IndexTs.Initialized 1 Example.uuid2;
        IndexTs.Inbound (Example.with_session "DELETE" Example.uuid2);
        IndexTs.Closed 1],
     IndexTs.HandleRequest 0).
Proof.
  apply (X18_session_stays_reachable
           (fst (IndexTs.mcp Example.handshake IndexTs.initial)) 0 Example.uuid1
           [IndexTs.Inbound Example.handshake;
            IndexTs.Initialized 1 Example.uuid2;
            IndexTs.Inbound (Example.with_session "DELETE" Example.uuid2);
            IndexTs.Closed 1]
           (Example.with_session "GET" Example.uuid1)).
  - now eexists.
  - discriminate.
  - intros [|[|t']] t Ht Hsid; [reflexivity | discriminate | discriminate].
  - intros t' [H|[H|[H|[H|[]]]]]; discriminate.
  - intros [H|[H|[H|[H|[]]]]]; discriminate.
  - reflexivity.
Defined.

Lemma step_consistent st ev :
  Wire.consistent st -> Wire.consistent (IndexTs.step st ev).
Proof.
  intros [Hconnected Htable]. destruct ev as [req|transport uuid|transport].
  - cbn [IndexTs.step]. unfold IndexTs.mcp.
    destruct (when_truthy _ _ _ _); [now split|].
    destruct (negb _ && _); [|now split].
    split; cbn [fst IndexTs.connected IndexTs.transports
                  IndexTs.streamableTransports].
    + rewrite length_app, Hconnected. cbn [length].
      rewrite Nat.add_1_r, seq_S. reflexivity.
    + eapply map_Forall_impl; [exact Htable|].
      intros k t Ht. cbn beta in *. rewrite length_app. lia.
  - cbn [IndexTs.step].
    destruct (IndexTs.transports st !! transport) as [t|] eqn:Ht; [|now split].
    split; cbn [IndexTs.onsessioninitialized IndexTs.connected
                  IndexTs.transports IndexTs.streamableTransports];
      rewrite length_insert; [assumption|].
    apply map_Forall_insert_2; [|assumption].
    now apply lookup_lt_Some in Ht.
  - cbn [IndexTs.step]. unfold IndexTs.onclose.
    destruct (IndexTs.transports st !! transport) as [t|]; [|now split].
    rewrite when_truthy_drop_falsy.
    destruct (Spec.drop_falsy _ _); [|now split].
    split; [assumption|]. now apply map_Forall_delete.
Qed.

(** X19. In every state the server reaches from its start, through
    requests, completed handshakes and closures in any order, every
    transport created so far was handed to [server.connect] exactly once
    and in the order of creation, and every entry of the session table
    names a transport that exists. *)
Theorem X19_reachable_states_are_consistent evs :
  let st := IndexTs.steps IndexTs.initial evs in
  IndexTs.connected st = seq 0 (length (IndexTs.transports st))
  /\ (forall sid transport,
        IndexTs.streamableTransports st !! sid = Some transport ->
        is_Some (IndexTs.transports st !! transport)).
Proof.
  intros st.
  assert (Wire.consistent st) as [Hconnected Htable].
  { subst st. unfold IndexTs.steps.
    assert (Wire.consistent IndexTs.initial) as Hinit
      by (split; [reflexivity | apply map_Forall_empty]).
    revert Hinit. generalize IndexTs.initial.
    induction evs as [|ev evs IH]; intros st0 Hst0; [assumption|].
    cbn [fold_left]. apply IH. now apply step_consistent. }
  split; [assumption|].
  intros sid transport Hsid. apply lookup_lt_is_Some.
  exact (proj1 (map_Forall_lookup _ _) Htable sid transport Hsid).
Qed.

Lemma X19_reachable_states_are_consistent_witness :
  is_Some (IndexTs.transports Example.one_session !! 0).
Proof.
  destruct (X19_reachable_states_are_consistent
              [IndexTs.Inbound Example.handshake;
               IndexTs.Initialized 0 Example.uuid1]) as [_ Hnames].
  apply (Hnames Example.uuid1 0). reflexivity.
Defined.

Lemma onclose_other_sessions st transport sid :
  (forall t, IndexTs.transports st !! transport = Some t ->
             IndexTs.sessionId t <> Some sid) ->
  IndexTs.streamableTransports (IndexTs.onclose transport st) !! sid
  = IndexTs.streamableTransports st !! sid.
Proof.
  intros Hother. unfold IndexTs.onclose.
  destruct (IndexTs.transports st !! transport) as [t|]; [|reflexivity].
  specialize (Hother t eq_refl). unfold when_truthy.
  destruct (IndexTs.sessionId t) as [closing|]; [|reflexivity].
  destruct (truthy_string closing); [|reflexivity].
  cbn [IndexTs.streamableTransports]. apply lookup_delete_ne. congruence.
Qed.

(** X20. The closure of a transport removes at most the entry under that
    transport's own session identifier: the entry of any other identifier
    is left as it was. A second closure signal of the same transport
    changes nothing. *)
Theorem X20_close_is_local_and_idempotent st transport :
  (forall sid,
     (forall t, IndexTs.transports st !! transport = Some t ->
                IndexTs.sessionId t <> Some sid) ->
     IndexTs.streamableTransports (IndexTs.step st (IndexTs.Closed transport))
       !! sid
     = IndexTs.streamableTransports st !! sid)
  /\ IndexTs.step (IndexTs.step st (IndexTs.Closed transport))
       (IndexTs.Closed transport)
     = IndexTs.step st (IndexTs.Closed transport).
Proof.
  split; [intros sid; apply onclose_other_sessions|].
  cbn [IndexTs.step]. rewrite (onclose_unfold st).
  destruct (IndexTs.transports st !! transport) as [t|] eqn:Ht.
  - destruct (Spec.drop_falsy truthy_string (IndexTs.sessionId t))
      as [sessionId|] eqn:Hsid.
    + rewrite onclose_unfold. cbn [IndexTs.transports]. rewrite Ht, Hsid.
      cbn [IndexTs.streamableTransports IndexTs.connected].
      now rewrite delete_delete_eq.
    + rewrite onclose_unfold. now rewrite Ht, Hsid.
  - rewrite onclose_unfold. now rewrite Ht.
Qed.

Lemma X20_close_is_local_and_idempotent_witness :
  IndexTs.transports Example.two_sessions !! 0
    = Some {| IndexTs.sessionId := Some Example.uuid1 |}
  /\ IndexTs.streamableTransports Example.two_sessions !! Example.uuid1 = Some 0
  /\ IndexTs.streamableTransports
       (IndexTs.step Example.two_sessions (IndexTs.Closed 0)) !! Example.uuid1
     = None
  /\ IndexTs.streamableTransports
       (IndexTs.step Example.two_sessions (IndexTs.Closed 0)) !! Example.uuid2
     = Some 1.
Proof.
  destruct (X20_close_is_local_and_idempotent Example.two_sessions 0)
    as [Hlocal _].
  split; [reflexivity|]. split; [reflexivity|]. split; [reflexivity|].
  rewrite (Hlocal Example.uuid2); [reflexivity|].
  intros t [= <-]. discriminate.
Defined.

(** *** The legacy endpoints *)

(** X21. A POST to [/messages] whose [sessionId] is missing from the query
    or is not a key of the legacy table is answered with status 400 and
    the fixed error text; it is handed to no transport. *)
Theorem X21_messages_without_session sessionId (st : Legacy.State) :
  sessionId = None
  \/ (exists s, sessionId = Some s /\ Legacy.sseTransports st !! s = None) ->
  Legacy.messages sessionId st
  = Legacy.Status400 "No active session. Connect to /sse first.".
Proof.
  unfold Legacy.messages. intros [-> | [s [-> Hunknown]]]; [reflexivity|].
  cbn [mbind option_bind]. now rewrite Hunknown.
Qed.

Lemma X21_messages_without_session_witness :
  Legacy.messages (Some Example.uuid1) Legacy.initial
  = Legacy.Status400 "No active session. Connect to /sse first.".
Proof.
  apply X21_messages_without_session. right. now exists Example.uuid1.
Defined.

(** X22. Opening [/sse] registers the new transport at once, under the
    identifier just drawn: a POST to [/messages] with that identifier is
    handed to it, and the entries of the other identifiers are untouched.
    When the connection closes the entry is removed, such a POST gets 400
    again, and, the identifier being new when it was drawn, the table is
    what it was before the connection. *)
Theorem X22_sse_session_lifecycle uuid (st : Legacy.State) :
  Legacy.sseTransports st !! uuid = None ->
  let opened := fst (Legacy.sse uuid st) in
  let transport := snd (Legacy.sse uuid st) in
  transport = Legacy.created st
  /\ Legacy.connected opened = Legacy.connected st ++ [transport]
  /\ Legacy.messages (Some uuid) opened = Legacy.HandlePostMessage transport
  /\ (forall other, other <> uuid ->
        Legacy.messages (Some other) opened = Legacy.messages (Some other) st)
  /\ Legacy.messages (Some uuid) (Legacy.close uuid opened)
     = Legacy.Status400 Legacy.no_active_session
  /\ Legacy.sseTransports (Legacy.close uuid opened) = Legacy.sseTransports st.
Proof.
  intros Hfresh opened transport. subst opened transport.
  unfold Legacy.sse, Legacy.close, Legacy.messages.
  cbn [fst snd Legacy.sseTransports Legacy.connected mbind option_bind].
  repeat split.
  - now rewrite lookup_insert_eq.
  - intros other Hother. now rewrite lookup_insert_ne.
  - now rewrite lookup_delete_eq.
  - now apply delete_insert_id.
Qed.

Lemma X22_sse_session_lifecycle_witness :
  Legacy.messages (Some Example.uuid1) (fst (Legacy.sse Example.uuid1 Legacy.initial))
  = Legacy.HandlePostMessage 0.
Proof.
  destruct (X22_sse_session_lifecycle Example.uuid1 Legacy.initial eq_refl)
    as [_ [_ [Hrouted _]]].
  exact Hrouted.
Defined.

Lemma legacy_step_consistent st ev :
  Legacy.connected st = seq 0 (Legacy.created st)
  /\ map_Forall (fun _ transport => transport < Legacy.created st)
       (Legacy.sseTransports st) ->
  Legacy.connected (Legacy.step st ev) = seq 0 (Legacy.created (Legacy.step st ev))
  /\ map_Forall (fun _ transport => transport < Legacy.created (Legacy.step st ev))
       (Legacy.sseTransports (Legacy.step st ev)).
Proof.
  intros [Hconnected Htable]. destruct ev as [uuid|sessionId|sessionId].
  - cbn [Legacy.step Legacy.sse fst Legacy.connected Legacy.created
           Legacy.sseTransports].
    split.
    + rewrite Hconnected, seq_S. reflexivity.
    + apply map_Forall_insert_2; [lia|].
      eapply map_Forall_impl; [exact Htable|].
      intros k t Ht. cbn beta in *. lia.
  - cbn [Legacy.step Legacy.close Legacy.connected Legacy.created
           Legacy.sseTransports].
    split; [assumption | now apply map_Forall_delete].
  - now split.
Qed.

(** X23. In every state the legacy endpoints reach from the start, through
    connections, closures and posts in any order, every SSE transport
    created was handed to [server.connect] once and in the order of
    creation, and every entry of the legacy table names a transport that
    was created. *)
Theorem X23_legacy_states_are_consistent evs :
  let st := Legacy.steps Legacy.initial evs in
  Legacy.connected st = seq 0 (Legacy.created st)
  /\ (forall sessionId transport,
        Legacy.sseTransports st !! sessionId = Some transport ->
        transport < Legacy.created st).
Proof.
  intros st.
  assert (Legacy.connected st = seq 0 (Legacy.created st)
          /\ map_Forall (fun _ transport => transport < Legacy.created st)
               (Legacy.sseTransports st)) as [Hconnected Htable].
  { subst st. unfold Legacy.steps.
    assert (Legacy.connected Legacy.initial = seq 0 (Legacy.created Legacy.initial)
            /\ map_Forall (fun _ transport => transport < Legacy.created Legacy.initial)
                 (Legacy.sseTransports Legacy.initial)) as Hinit
      by (split; [reflexivity | apply map_Forall_empty]).
    revert Hinit. generalize Legacy.initial.
    induction evs as [|ev evs IH]; intros st0 Hst0; [assumption|].
    cbn [fold_left]. apply IH. now apply legacy_step_consistent. }
  split; [assumption|].
  intros sessionId transport Hlookup.
  exact (proj1 (map_Forall_lookup _ _) Htable sessionId transport Hlookup).
Qed.

Lemma X23_legacy_states_are_consistent_witness :
  0 < Legacy.created
        (Legacy.steps Legacy.initial
           [Legacy.Connect Example.uuid1; Legacy.Post (Some Example.uuid1)]).
Proof.
  destruct (X23_legacy_states_are_consistent
              [Legacy.Connect Example.uuid1; Legacy.Post (Some Example.uuid1)])
    as [_ Hnames].
  apply (Hnames Example.uuid1 0). reflexivity.
Defined.

(** *** What the search sends and when it throws *)

(** X24. The query of [search_songs] never reaches the backend: the tool
    issues the GET of the song collection, scoped by [userId] only, and
    this one request is the same for every query; when the [userId] cannot
    be escaped, no request is issued, for any query. *)
Theorem X24_search_request_ignores_query (rt : Runtime) query userId backend :
  snd (run (IndexTs.search_songs query userId) backend)
  = match IndexTs.search_songs_endpoint userId with
    | Ok endpoint =>
        [ {| url := IndexTs.API_BASE_URL +:+ endpoint;
             options := {| method := "GET";
                           headers := [("Content-Type", "application/json")];
                           body := None |} |} ]
    | Throw _ => []
    end.
Proof.
  unfold IndexTs.search_songs.
  destruct (IndexTs.search_songs_endpoint userId) as [endpoint|e];
    [|reflexivity].
  change (run (endpoint0 ← await (Ok endpoint);
               result0 ← IndexTs.apiRequest endpoint0 "GET" None false;
               filtered ← await (IndexTs.search_filter query result0);
               mret (IndexTs.text_content (JArr filtered))) backend)
    with (run (result0 ← IndexTs.apiRequest endpoint "GET" None false;
               filtered ← await (IndexTs.search_filter query result0);
               mret (IndexTs.text_content (JArr filtered))) backend).
  rewrite run_bind, run_apiRequest.
  cbv zeta. destruct (backend _) as [response|e]; [|reflexivity].
  destruct (Response.ok response); [|reflexivity].
  destruct (Response.json response) as [result|e]; [|reflexivity].
  unfold mbind, Async_bind, await, mret, Async_ret.
  now destruct (IndexTs.search_filter query result).
Qed.

Lemma Array_some_stops {rt : Runtime} queryLower pre tag post :
  forallb Spec.is_string pre = true ->
  includes (toLowerCase tag) queryLower = true ->
  Array_some (IndexTs.lower_includes queryLower) (pre ++ JStr tag :: post)
  = Ok true.
Proof.
  intros Hpre Htag. induction pre as [|x pre IH]; cbn [app Array_some].
  - cbn [IndexTs.lower_includes]. now rewrite Htag.
  - cbn [forallb] in Hpre. apply andb_true_iff in Hpre as [Hx Hpre].
    destruct x; try discriminate. cbn [IndexTs.lower_includes].
    destruct (includes (toLowerCase s) queryLower); [reflexivity|].
    now apply IH.
Qed.

(** X25. The order in which a song is inspected shows in two ways. The
    tags are walked only up to the first tag that matches: what follows
    it, even an entry that is not a string, is not looked at, and the
    song is kept. And the tags are inspected even when the title already
    matches: a song whose [tags] field is present, not [null] and not an
    array makes the search throw, whatever its title. *)
Theorem X25_inspection_order (rt : Runtime) query fields :
  (forall pre tag post,
     obj_get fields "title" = None ->
     obj_get fields "tags" = Some (JArr (pre ++ JStr tag :: post)) ->
     forallb Spec.is_string pre = true ->
     includes (toLowerCase tag) (toLowerCase query) = true ->
     IndexTs.search_filter query (JArr [JObj fields]) = Ok [JObj fields])
  /\ (forall title tags,
        obj_get fields "title" = Some (JStr title) ->
        obj_get fields "tags" = Some tags ->
        (forall items, tags <> JArr items) -> tags <> JNull ->
        exists msg,
          IndexTs.search_filter query (JArr [JObj fields])
          = Throw (TypeError msg)).
Proof.
  unfold IndexTs.search_filter.
  cbn [IndexTs.songs_of prop mbind Result_bind when_truthy Array_filter].
  unfold IndexTs.song_matches, IndexTs.titleMatch, IndexTs.tagsMatch, prop.
  split.
  - intros pre tag post -> -> Hpre Htag.
    cbn [mbind Result_bind]. rewrite Array_some_stops by assumption.
    reflexivity.
  - intros title tags -> -> Harray Hnull.
    cbn [mbind Result_bind IndexTs.lower_includes].
    destruct tags as [| | | |items|]; try (eexists; reflexivity).
    + contradiction.
    + now destruct (Harray items).
Qed.

Lemma X25_inspection_order_witness :
  IndexTs.search_filter (rt := Example.anonymous) "rock"
    (JArr [JObj [("tags", JArr ([JStr "live"] ++ JStr "Rock" :: [JNull]))]])
  = Ok [JObj [("tags", JArr ([JStr "live"] ++ JStr "Rock" :: [JNull]))]]
  /\ exists msg,
       IndexTs.search_filter (rt := Example.anonymous) "rock"
         (JArr [JObj [("title", JStr "Rock me"); ("tags", JStr "rock")]])
       = Throw (TypeError msg).
Proof.
  destruct (X25_inspection_order Example.anonymous "rock"
              [("tags", JArr ([JStr "live"] ++ JStr "Rock" :: [JNull]))])
    as [Hstops _].
  destruct (X25_inspection_order Example.anonymous "rock"
              [("title", JStr "Rock me"); ("tags", JStr "rock")])
    as [_ Hthrows].
  split.
  - apply (Hstops [JStr "live"] "Rock" [JNull]); reflexivity.
  - apply (Hthrows "Rock me" (JStr "rock")); try reflexivity; discriminate.
Defined.
